(** * slog_gorm_color: a colourised slog handler and its context middleware

    A shallow embedding of the Go package [logger]: the dev handler
    [handlerTextColor] with its value encoder, and of [logger.go] the
    middleware [HandlerMiddleware] and the function-name reduction
    [getFuncNameSlog].  The handler is modelled sequentially: its mutex,
    which only serialises the final [Write], is left out.

    Conventions of the embedding.
    - A Go [string] is a sequence of bytes: Rocq's [string] (a list of
      8-bit [ascii]).  A [rune] and every Go integer is a [Z].
    - [panic] / [recover] are modelled by the [Outcome] type: a function
      that may panic returns [Panics msg] instead of [Returns v].
    - The buffer [*buffer] that the handler appends to is threaded
      explicitly: [appendX buf ...] returns the buffer after the append.
    - Functions of the Go standard library whose result is a table or a
      formatting decision (Unicode classes, [fmt], [strconv.Quote], time
      formatting, path reduction) are fields of the class [GoRuntime].
      [utf8.DecodeRuneInString], [strings.Split], [strings.HasPrefix] and
      [strconv.Atoi] are written out. *)

From Stdlib Require Import ZArith List String Ascii Bool Lia DecimalString.
Import ListNotations.

Local Open Scope string_scope.
Local Open Scope Z_scope.

(* ------------------------------------------------------------------ *)
(** ** Bytes and strings *)

Module GoBytes.

(** [s[i]] as a number. *)
Definition byte_of (c : ascii) : Z := Z.of_N (N_of_ascii c).

(** The byte with a given value (taken modulo 256 by [ascii_of_N]). *)
Definition chr (b : Z) : ascii := ascii_of_N (Z.to_N b).

(** [s[n:]] for [n <= len(s)]. *)
Fixpoint drop (n : nat) (s : string) : string :=
  match n, s with
  | O, _ => s
  | S _, EmptyString => EmptyString
  | S k, String _ t => drop k t
  end.

(** [s[i]], 0 when [i] is out of range (callers check the length first). *)
Fixpoint at_ (s : string) (i : nat) : Z :=
  match s, i with
  | EmptyString, _ => 0
  | String c _, O => byte_of c
  | String _ t, S k => at_ t k
  end.

Definition len (s : string) : Z := Z.of_nat (String.length s).

End GoBytes.
Import GoBytes.

(* ------------------------------------------------------------------ *)
(** ** [unicode/utf8] *)

Module utf8.

Definition RuneError : Z := 0xFFFD.
Definition RuneSelf : Z := 0x80.
Definition MaxRune : Z := 0x10FFFF.

Definition maskx : Z := 0x3F.
Definition mask2 : Z := 0x1F.
Definition mask3 : Z := 0x0F.
Definition mask4 : Z := 0x07.
Definition locb : Z := 0x80.
Definition hicb : Z := 0xBF.

(** Codes of the [first] table. *)
Definition xx : Z := 0xF1.
Definition as_ : Z := 0xF0.
Definition s1 : Z := 0x02.
Definition s2 : Z := 0x13.
Definition s3 : Z := 0x03.
Definition s4 : Z := 0x23.
Definition s5 : Z := 0x34.
Definition s6 : Z := 0x04.
Definition s7 : Z := 0x44.

(** [first[b]]: information about the first byte of an encoding. *)
Definition first (b : Z) : Z :=
  if b <? 0x80 then as_
  else if b <? 0xC2 then xx
  else if b <? 0xE0 then s1
  else if b =? 0xE0 then s2
  else if b <? 0xED then s3
  else if b =? 0xED then s4
  else if b <? 0xF0 then s3
  else if b =? 0xF0 then s5
  else if b <? 0xF4 then s6
  else if b =? 0xF4 then s7
  else xx.

(** [acceptRanges[i]] as a pair (lo, hi). *)
Definition acceptRanges (i : Z) : Z * Z :=
  if i =? 0 then (locb, hicb)
  else if i =? 1 then (0xA0, hicb)
  else if i =? 2 then (locb, 0x9F)
  else if i =? 3 then (0x90, hicb)
  else if i =? 4 then (locb, 0x8F)
  else (0, 0).

(** Conversion to [int32] (two's complement wrap-around). *)
Definition int32 (z : Z) : Z := (z + 2 ^ 31) mod 2 ^ 32 - 2 ^ 31.

(** [utf8.DecodeRuneInString]: the first rune of [s] and its width in
    bytes; [(RuneError, 0)] on the empty string and [(RuneError, 1)] on
    an invalid encoding. *)
Definition DecodeRuneInString (s : string) : Z * nat :=
  let n := len s in
  if n <? 1 then (RuneError, 0%nat)
  else
    let b0 := at_ s 0 in
    let x := first b0 in
    if x >=? as_ then
      let mask := Z.shiftr (int32 (Z.shiftl x 31)) 31 in
      (Z.lor (Z.land b0 (Z.lnot mask)) (Z.land RuneError mask), 1%nat)
    else
      let sz := Z.land x 7 in
      let accept := acceptRanges (Z.shiftr x 4) in
      if n <? sz then (RuneError, 1%nat)
      else
        let b1 := at_ s 1 in
        if (b1 <? fst accept) || (snd accept <? b1) then (RuneError, 1%nat)
        else if sz <=? 2 then
          (Z.lor (Z.shiftl (Z.land b0 mask2) 6) (Z.land b1 maskx), 2%nat)
        else
          let b2 := at_ s 2 in
          if (b2 <? locb) || (hicb <? b2) then (RuneError, 1%nat)
          else if sz <=? 3 then
            (Z.lor (Z.lor (Z.shiftl (Z.land b0 mask3) 12)
                          (Z.shiftl (Z.land b1 maskx) 6))
                   (Z.land b2 maskx), 3%nat)
          else
            let b3 := at_ s 3 in
            if (b3 <? locb) || (hicb <? b3) then (RuneError, 1%nat)
            else
              (Z.lor (Z.lor (Z.lor (Z.shiftl (Z.land b0 mask4) 18)
                                   (Z.shiftl (Z.land b1 maskx) 12))
                            (Z.shiftl (Z.land b2 maskx) 6))
                     (Z.land b3 maskx), 4%nat).

(** [utf8.AppendRune] on the empty slice: the UTF-8 encoding of a rune,
    the encoding of [RuneError] for a surrogate or an out-of-range value. *)
Definition EncodeRune (r : Z) : string :=
  let enc3 (r : Z) :=
    String (chr (Z.lor 0xE0 (Z.shiftr r 12)))
      (String (chr (Z.lor 0x80 (Z.land (Z.shiftr r 6) maskx)))
         (String (chr (Z.lor 0x80 (Z.land r maskx))) EmptyString)) in
  if (0 <=? r) && (r <=? 0x7F) then String (chr r) EmptyString
  else if (0 <=? r) && (r <=? 0x7FF) then
    String (chr (Z.lor 0xC0 (Z.shiftr r 6)))
      (String (chr (Z.lor 0x80 (Z.land r maskx))) EmptyString)
  else if (r <? 0) || (MaxRune <? r) || ((0xD800 <=? r) && (r <=? 0xDFFF))
  then enc3 RuneError
  else if r <=? 0xFFFF then enc3 r
  else
    String (chr (Z.lor 0xF0 (Z.shiftr r 18)))
      (String (chr (Z.lor 0x80 (Z.land (Z.shiftr r 12) maskx)))
         (String (chr (Z.lor 0x80 (Z.land (Z.shiftr r 6) maskx)))
            (String (chr (Z.lor 0x80 (Z.land r maskx))) EmptyString))).

(** [string(rs)] for a slice of runes. *)
Fixpoint string_of_runes (rs : list Z) : string :=
  match rs with
  | [] => EmptyString
  | r :: t => EncodeRune r ++ string_of_runes t
  end.

End utf8.

(* ------------------------------------------------------------------ *)
(** ** [strings] and [strconv] *)

Module strings.

(** [strings.HasPrefix(s, prefix)]. *)
Fixpoint HasPrefix (s prefix : string) : bool :=
  match prefix, s with
  | EmptyString, _ => true
  | String _ _, EmptyString => false
  | String p pt, String c t => Ascii.eqb c p && HasPrefix t pt
  end.

(** [strings.Split(s, sep)] for a one-byte separator: the pieces of [s]
    between the occurrences of [sep]; never the empty slice. *)
Fixpoint Split (s : string) (sep : ascii) : list string :=
  match s with
  | EmptyString => [EmptyString]
  | String c t =>
      if Ascii.eqb c sep then EmptyString :: Split t sep
      else match Split t sep with
           | [] => [String c EmptyString]
           | piece :: pieces => String c piece :: pieces
           end
  end.

(** [strings.Join(elems, sep)]. *)
Fixpoint Join (elems : list string) (sep : string) : string :=
  match elems with
  | [] => EmptyString
  | [e] => e
  | e :: rest => e ++ sep ++ Join rest sep
  end.

End strings.

Module strconv.

(** The loop [for _, ch := range []byte(s) { ch -= '0'; if ch > 9 {..};
    n = n*10 + int(ch) }]: [None] on a byte that is not a decimal digit. *)
Fixpoint digits (s : string) (n : Z) : option Z :=
  match s with
  | EmptyString => Some n
  | String c t =>
      let ch := (byte_of c - 48) mod 256 in
      if 9 <? ch then None else digits t (n * 10 + ch)
  end.

Definition is_sign (b : Z) : bool := (b =? 45) || (b =? 43).

(** [strconv.ParseInt(s, 10, 0)] with a 64-bit [int]: an optional sign,
    at least one decimal digit, and a value that fits; [None] stands for
    a syntax or a range error. *)
Definition ParseInt10 (s : string) : option Z :=
  if len s =? 0 then None
  else
    let neg := at_ s 0 =? 45 in
    let s' := if is_sign (at_ s 0) then drop 1 s else s in
    if len s' =? 0 then None
    else
      match digits s' 0 with
      | None => None
      | Some un =>
          let cutoff := 2 ^ 63 in
          if negb neg && (cutoff <=? un) then None
          else if neg && (cutoff <? un) then None
          else Some (if neg then - un else un)
      end.

(** [strconv.Atoi] on a platform whose [int] has 64 bits; [None] is
    [err != nil]. *)
Definition Atoi (s : string) : option Z :=
  let sLen := len s in
  if (0 <? sLen) && (sLen <? 19) then
    let s0 := s in
    let s' := if is_sign (at_ s 0) then drop 1 s else s in
    if len s' <? 1 then None
    else
      match digits s' 0 with
      | None => None
      | Some n => Some (if at_ s0 0 =? 45 then - n else n)
      end
  else ParseInt10 s.

End strconv.

(* ------------------------------------------------------------------ *)
(** ** logger.go: function-name reduction *)

(** The body of the loop [for i := len(arr) - 1; i >= 0; i--] of
    [getFuncNameSlog], over the segments still to visit (last first). *)
Fixpoint getFuncNameSlog_loop (rarr : list string) (funcName : string) : string :=
  match rarr with
  | [] => funcName
  | seg :: rest =>
      if strings.HasPrefix seg "func"
         || match strconv.Atoi seg with Some _ => true | None => false end
      then getFuncNameSlog_loop rest ("." ++ seg ++ funcName)
      else seg ++ funcName
  end.

Definition getFuncNameSlog (pathFunc : string) : string :=
  let arr := strings.Split pathFunc "." in
  if Nat.eqb (List.length arr) 0 then pathFunc
  else getFuncNameSlog_loop (rev arr) "".

(* ------------------------------------------------------------------ *)
(** ** Panics, dynamic values, the Go runtime *)

(** The result of a call that may panic; [msg] is the panic value as
    [%v] prints it. *)
Inductive Outcome (A : Type) : Type :=
| Returns (a : A)
| Panics (msg : string).
Arguments Returns {A} a.
Arguments Panics {A} msg.

Definition bind {A B : Type} (m : Outcome A) (k : A -> Outcome B) : Outcome B :=
  match m with
  | Returns a => k a
  | Panics msg => Panics msg
  end.

Notation "x <- m ;; k" := (bind m (fun x => k))
  (at level 61, m at next level, right associativity).

Definition panics {A : Type} (m : Outcome A) : bool :=
  match m with Returns _ => false | Panics _ => true end.

(** [slog.Source]; also the frame [runtime.CallersFrames] resolves a
    program counter to ([File = ""] when there is no frame). *)
Record Source : Type := mkSource {
  Function : string;
  File : string;
  Line : Z
}.

(** What [MarshalText] of an [encoding.TextMarshaler] does. *)
Inductive MarshalResult : Type :=
| Marshal_data (data : string)
| Marshal_err (err : string)
| Marshal_panic (msg : string).

(** A value of type [any], by the dynamic types the package tells apart.
    [any_other] stands for a value of any other type; its argument names
    the value.  [nilptr] says whether the interface holds a nil pointer. *)
Inductive Any : Type :=
| any_nil
| any_string (s : string)
| any_int64 (n : Z)
| any_Duration (d : Z)
| any_Source (src : Source)
| any_SourcePtr (p : option Source)
| any_Level (l : Z)
| any_logError (Error : Outcome string)
| any_TextMarshaler (nilptr : bool) (MarshalText : MarshalResult)
| any_other (name : string).

(** [reflect.ValueOf(a).Kind() == reflect.Pointer && reflect.ValueOf(a).IsNil()]. *)
Definition is_nil_pointer (a : Any) : bool :=
  match a with
  | any_SourcePtr None => true
  | any_TextMarshaler nilptr _ => nilptr
  | _ => false
  end.

(** [time.Time] as the nanoseconds since the zero time; [float64] as its
    IEEE 754 bit pattern (how [slog.Value] stores it). *)
Definition Time : Type := Z.
Definition float64 : Type := Z.

(** The functions of the Go standard library that the package calls and
    that are not written out in this file. *)
Class GoRuntime : Type := {
  unicode_IsSpace : Z -> bool;
  unicode_IsPrint : Z -> bool;
  unicode_IsLetter : Z -> bool;
  (** [strconv.Quote(s)] *)
  strconv_Quote : string -> string;
  (** [strings.ReplaceAll(s, old, new)] *)
  strings_ReplaceAll : string -> string -> string -> string;
  (** [strconv.FormatInt(n, 10)], also [strconv.Itoa] *)
  strconv_FormatInt : Z -> string;
  (** [strconv.FormatUint(n, 10)] *)
  strconv_FormatUint : Z -> string;
  (** [strconv.FormatFloat(f, fmt, prec, 64)] *)
  strconv_FormatFloat : float64 -> ascii -> Z -> string;
  (** [d.Seconds()] *)
  Duration_Seconds : Z -> float64;
  (** [d.String()] *)
  Duration_String : Z -> string;
  (** [t.String()] *)
  Time_String : Time -> string;
  (** [t.AppendFormat(nil, layout)] *)
  Time_Format : Time -> string -> string;
  (** [l.String()] for a [slog.Level] *)
  Level_String : Z -> string;
  (** [fmt.Sprintf("%v", a)] and [fmt.Sprintf("%+v", a)] *)
  fmt_v : Any -> string;
  fmt_plus_v : Any -> string;
  (** [path.Join(filepath.Base(dir), file)] for
      [dir, file := filepath.Split(p)] *)
  shortFile : string -> string
}.

(* ------------------------------------------------------------------ *)
(** ** Constants *)

Definition ansiEsc : Z := 0x1b.
Definition esc (code : string) : string := String (chr ansiEsc) code.

Definition Reset : string := esc "[0m".
Definition Red : string := esc "[31m".
Definition Faint : string := esc "[90m".
Definition Green : string := esc "[32m".
Definition Yellow : string := esc "[33m".
Definition YellowBack : string := esc "[43m".
Definition Blue : string := esc "[34m".
Definition Magenta : string := esc "[35m".
Definition Cyan : string := esc "[36m".
Definition BrightGreen : string := esc "[92m".
Definition BrightYellow : string := esc "[93m".

(** The context keys of logger.go (the Go constants [Source], [Duration],
    [Rows], [Sql]). *)
Definition key_Source : string := "source".
Definition key_Duration : string := "duration".
Definition key_Rows : string := "rows".
Definition key_Sql : string := "sql".

Definition LevelDebug : Z := -4.
Definition LevelInfo : Z := 0.
Definition LevelWarn : Z := 4.
Definition LevelError : Z := 8.

(** [time.Second] and [time.TimeOnly]. *)
Definition Second : Z := 1000000000.
Definition TimeOnly : string := "15:04:05".

(** The characters whose entry in [safeSet] is [true]; every other index
    (the double quote and the backslash among them) holds [false]. *)
Definition safeSet_true : string :=
  " !#$%&'()*+,-./0123456789:;<=>?@ABCDEFGHIJKLMNOPQRSTUVWXYZ[]^_`abcdefghijklmnopqrstuvwxyz{|}~"
  ++ String (chr 0x7f) (String (chr 0x1b) EmptyString).

Fixpoint mem_byte (b : Z) (s : string) : bool :=
  match s with
  | EmptyString => false
  | String c t => (byte_of c =? b) || mem_byte b t
  end.

(** [safeSet[b]]. *)
Definition safeSet (b : Z) : bool := mem_byte b safeSet_true.

(* ------------------------------------------------------------------ *)
(** ** Context *)

(** A [context.Context] as the chain of its [WithValue] bindings, the
    innermost first. *)
Definition Context : Type := list (string * Any).

(** [ctx.Value(key)]: [any_nil] when no binding has the key. *)
Fixpoint ctx_Value (ctx : Context) (key : string) : Any :=
  match ctx with
  | [] => any_nil
  | (k, v) :: parent => if String.eqb k key then v else ctx_Value parent key
  end.

Definition WithValue (ctx : Context) (key : string) (v : Any) : Context :=
  (key, v) :: ctx.

Definition is_nil (a : Any) : bool :=
  match a with any_nil => true | _ => false end.

(* ------------------------------------------------------------------ *)
(** ** [slog.Value], [slog.Attr], [slog.Record] *)

(** A [slog.Value] by kind.  A [KindLogValuer] value carries what its
    [LogValue] method does. *)
Inductive Value : Type :=
| StringValue (s : string)
| Int64Value (n : Z)
| Uint64Value (n : Z)
| Float64Value (f : float64)
| BoolValue (b : bool)
| DurationValue (d : Z)
| TimeValue (t : Time)
| GroupValue (g : list Attr)
| AnyValue (a : Any)
| LogValuerValue (lv : LogValue)
with Attr : Type :=
| mkAttr (Key : string) (Val : Value)
with LogValue : Type :=
| LogValue_returns (v : Value)
| LogValue_panics (msg : string).

Definition Attr_Key (a : Attr) : string := match a with mkAttr k _ => k end.
Definition Attr_Value (a : Attr) : Value := match a with mkAttr _ v => v end.

Inductive Kind : Type :=
| KindAny | KindBool | KindDuration | KindFloat64 | KindInt64 | KindString
| KindTime | KindUint64 | KindGroup | KindLogValuer.

Definition Value_Kind (v : Value) : Kind :=
  match v with
  | StringValue _ => KindString
  | Int64Value _ => KindInt64
  | Uint64Value _ => KindUint64
  | Float64Value _ => KindFloat64
  | BoolValue _ => KindBool
  | DurationValue _ => KindDuration
  | TimeValue _ => KindTime
  | GroupValue _ => KindGroup
  | AnyValue _ => KindAny
  | LogValuerValue _ => KindLogValuer
  end.

Definition maxLogValues : nat := 100.

(** The errors [Value.Resolve] builds when [LogValue] panics and when the
    chain of [LogValue] calls does not end. *)
Definition err_LogValue_panicked : Value := AnyValue (any_other "LogValue panicked").
Definition err_LogValue_too_many : Value :=
  AnyValue (any_other "LogValue called too many times").

(** The loop of [Value.Resolve], with [n] iterations left. *)
Fixpoint Resolve_loop (n : nat) (v : Value) : Value :=
  match n with
  | O => err_LogValue_too_many
  | S n' =>
      match v with
      | LogValuerValue (LogValue_returns v') => Resolve_loop n' v'
      | LogValuerValue (LogValue_panics _) => err_LogValue_panicked
      | _ => v
      end
  end.

Definition Resolve (v : Value) : Value := Resolve_loop maxLogValues v.

(** [a.Equal(slog.Attr{})] for an attribute with key [key] and value [v]:
    the key is empty and the value is the zero [Value], which is of kind
    Any and holds nil. *)
Definition is_zero_Attr (key : string) (v : Value) : bool :=
  String.eqb key "" && match v with AnyValue any_nil => true | _ => false end.

(** [slog.AnyValue(a)]: the [Value] for a dynamic value. *)
Definition slog_AnyValue (a : Any) : Value :=
  match a with
  | any_string s => StringValue s
  | any_int64 n => Int64Value n
  | any_Duration d => DurationValue d
  | _ => AnyValue a
  end.

(** [slog.Record]; [PC] is given by the frame it resolves to. *)
Record Record_ : Type := mkRecord {
  rec_Time : Time;
  rec_Message : string;
  rec_Level : Z;
  rec_PC : Source;
  rec_Attrs : list Attr
}.

Definition Time_IsZero (t : Time) : bool := t =? 0.

(** [rec.Add(key, c)] for a string key and one value. *)
Definition Record_Add (r : Record_) (key : string) (c : Any) : Record_ :=
  mkRecord (rec_Time r) (rec_Message r) (rec_Level r) (rec_PC r)
           (rec_Attrs r ++ [mkAttr key (slog_AnyValue c)])%list.

(** What [Handle] hands to the sink ([None]: [Write] was not called) and
    the error it returns ([None]: nil). *)
Record HandleResult : Type := mkResult {
  written : option string;
  err : option string
}.

(** An [io.Writer], by what its [Write] does with given bytes: it returns
    an error ([None]: nil) or panics. *)
Definition Writer : Type := string -> Outcome (option string).

(** The [slog.Handler] interface. *)
Class Handler (H : Type) : Type := {
  Enabled : H -> Context -> Z -> bool;
  Handle : H -> Context -> Record_ -> Outcome HandleResult;
  WithAttrs : H -> list Attr -> Outcome H;
  WithGroup : H -> string -> Outcome H
}.

(* ------------------------------------------------------------------ *)
(** ** The dev handler *)

Record Options : Type := mkOptions {
  opt_AddCxtAttr : list string;
  opt_W : Writer;
  opt_Source : bool;
  opt_SlowThreshold : Z
}.

Record handlerTextColor : Type := mkHandler {
  source : bool;
  timeFormat : string;
  level : Z;
  attrsPrefix : string;
  groupPrefix : string;
  addCxtAttr : list string;
  groups : list string;
  slowThreshold : Z;
  w : Writer
}.

Definition NewDevHandler (opt : Options) : handlerTextColor :=
  let opt_SlowThreshold' :=
    if opt_SlowThreshold opt =? 0 then Second else opt_SlowThreshold opt in
  {| level := LevelDebug;
     timeFormat := TimeOnly;
     source := opt_Source opt;
     slowThreshold := opt_SlowThreshold';
     addCxtAttr := opt_AddCxtAttr opt;
     w := opt_W opt;
     attrsPrefix := "";
     groupPrefix := "";
     groups := [] |}.

(** [clone]: the fields the composite literal does not name take their
    zero value. *)
Definition clone (h : handlerTextColor) : handlerTextColor :=
  {| attrsPrefix := attrsPrefix h;
     groupPrefix := groupPrefix h;
     groups := groups h;
     w := w h;
     level := level h;
     timeFormat := timeFormat h;
     source := false;
     addCxtAttr := [];
     slowThreshold := 0 |}.

Definition handlerTextColor_Enabled (h : handlerTextColor) (ctx : Context) (level : Z) : bool :=
  true.

Definition handlerTextColor_WithGroup (h : handlerTextColor) (name : string)
  : handlerTextColor :=
  if String.eqb name "" then h
  else
    let h2 := clone h in
    {| attrsPrefix := attrsPrefix h2;
       groupPrefix := groupPrefix h2 ++ name ++ ".";
       groups := (groups h2 ++ [name])%list;
       w := w h2;
       level := level h2;
       timeFormat := timeFormat h2;
       source := source h2;
       addCxtAttr := addCxtAttr h2;
       slowThreshold := slowThreshold h2 |}.

Section Rendering.

Context {RT : GoRuntime}.

(** [needsQuoting]: the loop [for i := 0; i < len(s);] over the rest
    [s[i:]] of the string.  Every iteration advances [i] by at least one
    byte, so [len(s)] iterations are enough ([fuel] counts them). *)
Fixpoint needsQuoting_loop (fuel : nat) (s : string) : bool :=
  match fuel with
  | O => false
  | S fuel' =>
      match s with
      | EmptyString => false
      | String c t =>
          let b := byte_of c in
          if b <? utf8.RuneSelf then
            if negb (b =? 92) && ((b =? 32) || (b =? 61) || negb (safeSet b))
            then true
            else needsQuoting_loop fuel' t
          else
            let (r, size) := utf8.DecodeRuneInString s in
            if (r =? utf8.RuneError) || unicode_IsSpace r || negb (unicode_IsPrint r)
            then true
            else needsQuoting_loop fuel' (drop size s)
      end
  end.

Definition needsQuoting (s : string) : bool :=
  if len s =? 0 then true
  else needsQuoting_loop (String.length s) s.

(** [cut(s, f)]; the closure [f] may keep state between its calls, here
    the state [St]. *)
Fixpoint cut_loop {St : Type} (fuel : nat) (s : string)
    (f : St -> Z -> bool * St) (st : St) (res : list Z) : list Z :=
  match fuel with
  | O => res
  | S fuel' =>
      if len s <=? 0 then res
      else
        let (r, size) := utf8.DecodeRuneInString s in
        if r =? utf8.RuneError then res
        else
          let (cut_it, st') := f st r in
          cut_loop fuel' (drop size s) f st'
                   (if cut_it then res else (res ++ [r])%list)
  end.

Definition cut {St : Type} (s : string) (f : St -> Z -> bool * St) (st : St) : string :=
  utf8.string_of_runes (cut_loop (String.length s) s f st []).

(** The closure of [appendString] that drops ANSI escape sequences; its
    state is the variable [inEscape]. *)
Definition trim_ansi (inEscape : bool) (r : Z) : bool * bool :=
  if r =? ansiEsc then (true, true)
  else if inEscape && unicode_IsLetter r then (true, false)
  else (inEscape, inEscape).

Definition appendString (buf s : string) (quote color : bool) : string :=
  let s := if quote && negb color then cut s trim_ansi false else s in
  let quote := quote && needsQuoting s in
  if color && quote then
    buf ++ strings_ReplaceAll (strconv_Quote s) "\x1b" (String (chr ansiEsc) "")
  else if negb color && quote then buf ++ strconv_Quote s
  else buf ++ s.

Definition appendTime (h : handlerTextColor) (buf : string) (t : Time) : string :=
  buf ++ Faint ++ Time_Format t (timeFormat h) ++ Reset.

Definition appendLevel (h : handlerTextColor) (buf : string) (level : Z) : string :=
  let colorLevel :=
    if level =? LevelInfo then BrightGreen
    else if level =? LevelWarn then BrightYellow
    else Red in
  buf ++ colorLevel ++ Level_String level ++ Reset.

Definition appendSource (h : handlerTextColor) (buf : string) (src : Source) : string :=
  let buf := buf ++ Faint ++ shortFile (File src) in
  let buf :=
    if negb (Line src =? 0)
    then buf ++ ":" ++ strconv_FormatInt (Line src) ++ Reset
    else buf in
  buf ++ " " ++ Blue ++ getFuncNameSlog (Function src) ++ Reset ++ " ".

Definition appendMessage (h : handlerTextColor) (buf : string) (level : Z) (msg : string)
  : string :=
  if String.eqb msg "" then buf
  else
    let colorMsg := if level =? LevelError then Red else Cyan in
    buf ++ colorMsg ++ msg ++ Reset ++ " ".

Definition appendSql (h : handlerTextColor) (ctx : Context) (level : Z) (buf : string)
  : string :=
  let sql := ctx_Value ctx key_Sql in
  if is_nil sql then buf
  else
    let buf := buf ++ String (chr 10) "" in
    let buf :=
      match ctx_Value ctx key_Duration with
      | any_Duration c =>
          let colorDuration := if c >? slowThreshold h then Red else Green in
          let duration := Duration_Seconds c in
          let durStr := strconv_FormatFloat duration "f" 4 in
          buf ++ colorDuration ++ ("[" ++ durStr ++ "] ") ++ Reset
      | _ => buf
      end in
    let buf :=
      let c := ctx_Value ctx key_Rows in
      if negb (is_nil c)
      then buf ++ Yellow ++ ("rows:" ++ fmt_v c ++ " ") ++ Reset
      else buf in
    let colorSql := if level =? LevelError then Red else Magenta in
    buf ++ colorSql ++ (fmt_v sql ++ " ") ++ Reset ++ String (chr 10) "".

Definition appendCtxValue (h : handlerTextColor) (buf key value : string) : string :=
  buf ++ Faint ++ (key ++ "=") ++ Reset ++ value.

(** [AddValueCtx]: the loop over [h.addCxtAttr]. *)
Fixpoint AddValueCtx_loop (h : handlerTextColor) (ctx : Context) (keys : list string)
    (buf : string) : string :=
  match keys with
  | [] => buf
  | v :: rest =>
      let c := ctx_Value ctx v in
      let buf := if negb (is_nil c) then appendCtxValue h buf v (fmt_v c ++ " ") else buf in
      AddValueCtx_loop h ctx rest buf
  end.

Definition AddValueCtx (h : handlerTextColor) (ctx : Context) (buf : string) : string :=
  AddValueCtx_loop h ctx (addCxtAttr h) buf.

Definition appendKey (h : handlerTextColor) (buf key groups : string) : string :=
  let buf := buf ++ Faint in
  let buf := appendString buf (groups ++ key) false true in
  buf ++ "=" ++ Reset.

Definition nil_dereference : string :=
  "runtime error: invalid memory address or nil pointer dereference".

(** The type switch of [appendValue] for a value of kind Any, before the
    deferred [recover].  A panic of [MarshalText], and the dereference of
    a nil [*slog.Source] on the first line of [appendSource], happen
    before anything is appended. *)
Definition appendValue_any (h : handlerTextColor) (buf : string) (a : Any) (quote : bool)
  : Outcome string :=
  match a with
  | any_Level cv => Returns (appendLevel h buf cv)
  | any_TextMarshaler _ mt =>
      match mt with
      | Marshal_panic msg => Panics msg
      | Marshal_err _ => Returns buf
      | Marshal_data data => Returns (appendString buf data quote true)
      end
  | any_SourcePtr None => Panics nil_dereference
  | any_SourcePtr (Some cv) => Returns (appendSource h buf cv)
  | cv => Returns (appendString buf (fmt_plus_v cv) quote true)
  end.

Definition appendValue (h : handlerTextColor) (buf : string) (v : Value) (quote : bool)
  : string :=
  match v with
  | StringValue s => appendString buf s quote true
  | Int64Value n => buf ++ strconv_FormatInt n
  | Uint64Value n => buf ++ strconv_FormatUint n
  | Float64Value f => buf ++ strconv_FormatFloat f "g" (-1)
  | BoolValue b => buf ++ (if b then "true" else "false")
  | DurationValue d => appendString buf (Duration_String d) quote true
  | TimeValue t => appendString buf (Time_String t) quote true
  | AnyValue a =>
      match appendValue_any h buf a quote with
      | Returns buf' => buf'
      | Panics r =>
          if is_nil_pointer a then appendString buf "<nil>" false false
          else appendString buf ("!PANIC: " ++ r) true true
      end
  | GroupValue _ | LogValuerValue _ => buf
  end.

Definition appendTintError (h : handlerTextColor) (buf : string) (e : Outcome string)
    (attrKey groupsPrefix : string) : Outcome string :=
  let buf := buf ++ Blue in
  let buf := appendString buf (groupsPrefix ++ attrKey) true true in
  let buf := buf ++ "=" ++ Faint in
  msg <- e ;;
  Returns (appendString buf msg true true ++ Reset).

(** [appendAttr] after [attr.Value.Resolve()], for a value that is not a
    group. *)
Definition appendAttr_leaf (h : handlerTextColor) (buf key : string) (v : Value)
    (groupsPrefix : string) : Outcome string :=
  if is_zero_Attr key v then Returns buf
  else
    match v with
    | AnyValue (any_logError e) =>
        buf <- appendTintError h buf e key groupsPrefix ;;
        Returns (buf ++ " ")
    | _ =>
        let buf := appendKey h buf key groupsPrefix in
        let buf := appendValue h buf v true in
        Returns (buf ++ " ")
    end.

(** [appendAttr].  The recursion is on the value; [n] is the number of
    iterations the loop of [Resolve] has left for it, so that the
    members of a group are reached structurally.  [appendAttr_eq] below
    gives the equation in the shape of the source. *)
Fixpoint appendAttr_rec (n : nat) (h : handlerTextColor) (buf key : string) (v : Value)
    (groupsPrefix : string) (groups : list string) {struct v} : Outcome string :=
  match n with
  | O => appendAttr_leaf h buf key err_LogValue_too_many groupsPrefix
  | S n' =>
      match v with
      | LogValuerValue (LogValue_returns v') =>
          appendAttr_rec n' h buf key v' groupsPrefix groups
      | LogValuerValue (LogValue_panics _) =>
          appendAttr_leaf h buf key err_LogValue_panicked groupsPrefix
      | GroupValue g =>
          let groupsPrefix' :=
            if negb (String.eqb key "") then groupsPrefix ++ key ++ "." else groupsPrefix in
          let groups' :=
            if negb (String.eqb key "") then (groups ++ [key])%list else groups in
          (fix members (g : list Attr) (buf : string) : Outcome string :=
             match g with
             | [] => Returns buf
             | mkAttr k gv :: rest =>
                 buf <- appendAttr_rec maxLogValues h buf k gv groupsPrefix' groups' ;;
                 members rest buf
             end) g buf
      | _ => appendAttr_leaf h buf key v groupsPrefix
      end
  end.

Definition appendAttr (h : handlerTextColor) (buf : string) (attr : Attr)
    (groupsPrefix : string) (groups : list string) : Outcome string :=
  appendAttr_rec maxLogValues h buf (Attr_Key attr) (Attr_Value attr) groupsPrefix groups.

(** A loop [for _, attr := range attrs { h.appendAttr(buf, attr, ...) }]. *)
Fixpoint appendAttrs (h : handlerTextColor) (buf : string) (attrs : list Attr)
    (groupsPrefix : string) (groups : list string) : Outcome string :=
  match attrs with
  | [] => Returns buf
  | attr :: rest =>
      buf <- appendAttr h buf attr groupsPrefix groups ;;
      appendAttrs h buf rest groupsPrefix groups
  end.

End Rendering.

Section Handlers.

Context {RT : GoRuntime}.

(** Assignment of [c] to the last byte of a buffer that is not empty. *)
Fixpoint set_last (buf : string) (c : ascii) : string :=
  match buf with
  | EmptyString => EmptyString
  | String _ EmptyString => String c EmptyString
  | String b t => String b (set_last t c)
  end.

Definition newline : ascii := chr 10.

(** [Handle] of the dev handler.  The buffer starts empty ([newBuffer]);
    the mutex only serialises the final [Write]. *)
Definition handlerTextColor_Handle (h : handlerTextColor) (ctx : Context) (r : Record_)
  : Outcome HandleResult :=
  let buf := "" in
  let buf :=
    if negb (Time_IsZero (rec_Time r))
    then appendTime h buf (rec_Time r) ++ " "
    else buf in
  let buf := appendLevel h buf (rec_Level r) ++ " " in
  let f := rec_PC r in
  let buf :=
    if source h && negb (String.eqb (File f) "") then
      match ctx_Value ctx key_Source with
      | any_Source c => appendSource h buf c
      | _ =>
          let src := {| Function := Function f; File := File f; Line := Line f |} in
          appendSource h buf src
      end
    else buf in
  let buf := appendMessage h buf (rec_Level r) (rec_Message r) in
  buf <- appendAttrs h buf (rec_Attrs r) (groupPrefix h) (groups h) ;;
  let buf := AddValueCtx h ctx buf in
  let buf := if 0 <? len (attrsPrefix h) then buf ++ attrsPrefix h else buf in
  let buf := appendSql h ctx (rec_Level r) buf in
  if len buf =? 0 then Returns {| written := None; err := None |}
  else
    let buf := set_last buf newline in
    e <- w h buf ;;
    Returns {| written := Some buf; err := e |}.

Definition handlerTextColor_WithAttrs (h : handlerTextColor) (attrs : list Attr)
  : Outcome handlerTextColor :=
  if Nat.eqb (List.length attrs) 0 then Returns h
  else
    let h2 := clone h in
    buf <- appendAttrs h "" attrs (groupPrefix h) (groups h) ;;
    Returns {| attrsPrefix := attrsPrefix h ++ buf;
               groupPrefix := groupPrefix h2;
               groups := groups h2;
               w := w h2;
               level := level h2;
               timeFormat := timeFormat h2;
               source := source h2;
               addCxtAttr := addCxtAttr h2;
               slowThreshold := slowThreshold h2 |}.

(** The nil [io.Writer] (an [Options] whose [W] is not set): calling its
    [Write] panics. *)
Definition nil_Writer : Writer := fun _ => Panics nil_dereference.

#[export] Instance handlerTextColor_Handler : Handler handlerTextColor := {
  Enabled := handlerTextColor_Enabled;
  Handle := handlerTextColor_Handle;
  WithAttrs := handlerTextColor_WithAttrs;
  WithGroup := fun h name => Returns (handlerTextColor_WithGroup h name)
}.

End Handlers.

(* ------------------------------------------------------------------ *)
(** ** logger.go: the context middleware *)

Record HandlerMiddleware (H : Type) : Type := mkMiddleware {
  mw_source : bool;
  mw_addCxtAttr : list string;
  mw_next : H
}.
Arguments mkMiddleware {H}.
Arguments mw_source {H}.
Arguments mw_addCxtAttr {H}.
Arguments mw_next {H}.

Section Middleware.

Context {RT : GoRuntime} {H : Type} {next_Handler : Handler H}.

Definition NewHandlerMiddleware (next : H) (opt : Options) : HandlerMiddleware H :=
  {| mw_next := next; mw_source := opt_Source opt; mw_addCxtAttr := opt_AddCxtAttr opt |}.

Definition HandlerMiddleware_Enabled (h : HandlerMiddleware H) (ctx : Context) (lvl : Z)
  : bool :=
  Enabled (mw_next h) ctx lvl.

(** The loop over [h.addCxtAttr] of [Handle]. *)
Fixpoint addCxtAttr_loop (ctx : Context) (keys : list string) (rec : Record_) : Record_ :=
  match keys with
  | [] => rec
  | v :: rest =>
      let c := ctx_Value ctx v in
      let rec := if negb (is_nil c) then Record_Add rec v c else rec in
      addCxtAttr_loop ctx rest rec
  end.

(** The record [Handle] forwards to the next handler. *)
Definition HandlerMiddleware_enrich (h : HandlerMiddleware H) (ctx : Context)
    (rec : Record_) : Record_ :=
  let rec := addCxtAttr_loop ctx (mw_addCxtAttr h) rec in
  let rec :=
    let c := ctx_Value ctx key_Sql in
    if negb (is_nil c) then Record_Add rec key_Sql c else rec in
  if mw_source h then
    if is_nil (ctx_Value ctx key_Source) then
      let f := rec_PC rec in
      if negb (String.eqb (File f) "") then
        let pathFile := shortFile (File f) in
        let src := {| Function := getFuncNameSlog (Function f);
                      File := pathFile;
                      Line := Line f |} in
        Record_Add rec key_Source (any_SourcePtr (Some src))
      else rec
    else rec
  else rec.

Definition HandlerMiddleware_Handle (h : HandlerMiddleware H) (ctx : Context)
    (rec : Record_) : Outcome HandleResult :=
  Handle (mw_next h) ctx (HandlerMiddleware_enrich h ctx rec).

Definition HandlerMiddleware_WithAttrs (h : HandlerMiddleware H) (attrs : list Attr)
  : Outcome (HandlerMiddleware H) :=
  next <- WithAttrs (mw_next h) attrs ;;
  Returns {| mw_next := next; mw_source := false; mw_addCxtAttr := [] |}.

Definition HandlerMiddleware_WithGroup (h : HandlerMiddleware H) (name : string)
  : Outcome (HandlerMiddleware H) :=
  next <- WithGroup (mw_next h) name ;;
  Returns {| mw_next := next; mw_source := false; mw_addCxtAttr := [] |}.

#[export] Instance HandlerMiddleware_Handler : Handler (HandlerMiddleware H) := {
  Enabled := HandlerMiddleware_Enabled;
  Handle := HandlerMiddleware_Handle;
  WithAttrs := HandlerMiddleware_WithAttrs;
  WithGroup := HandlerMiddleware_WithGroup
}.

End Middleware.

(* ------------------------------------------------------------------ *)
(** ** Notions used to state the properties *)

(** The runes of a string, as [for _, r := range s] yields them: each
    invalid byte counts as one [RuneError]. *)
Fixpoint runes_loop (fuel : nat) (s : string) : list Z :=
  match fuel with
  | O => []
  | S fuel' =>
      match s with
      | EmptyString => []
      | String _ _ =>
          let (r, size) := utf8.DecodeRuneInString s in
          r :: runes_loop fuel' (drop size s)
      end
  end.

Definition runes (s : string) : list Z := runes_loop (String.length s) s.

Section QuotingSpec.

Context {RT : GoRuntime}.

(** The quoting rule in the words of the specification: the string is
    empty, or it contains a space, an [=], a character outside the safe
    set, or a code point that is a space or is not printable. *)
Definition spec_quote_trigger (r : Z) : bool :=
  (r =? 32) || (r =? 61)
  || ((0 <=? r) && (r <? utf8.RuneSelf) && negb (safeSet r))
  || unicode_IsSpace r || negb (unicode_IsPrint r).

Definition spec_quoting_required (s : string) : bool :=
  (len s =? 0) || existsb spec_quote_trigger (runes s).

(** The rune-wise condition of [needsQuoting]: the backslash never
    triggers quoting, the Unicode classes are only consulted outside
    ASCII, and [RuneError] (an invalid encoding, or U+FFFD itself)
    always triggers it. *)
Definition quote_trigger (r : Z) : bool :=
  if r <? utf8.RuneSelf
  then negb (r =? 92) && ((r =? 32) || (r =? 61) || negb (safeSet r))
  else (r =? utf8.RuneError) || unicode_IsSpace r || negb (unicode_IsPrint r).

End QuotingSpec.

(** Function-name reduction in the words of the specification: the
    absorbed segments are the numeric-only ones and the ones prefixed
    with [func]. *)
Definition is_digit (c : ascii) : bool := (48 <=? byte_of c) && (byte_of c <=? 57).

Fixpoint all_digits (s : string) : bool :=
  match s with
  | EmptyString => true
  | String c t => is_digit c && all_digits t
  end.

Definition numeric_only (seg : string) : bool :=
  negb (String.eqb seg "") && all_digits seg.

Fixpoint spec_reduce_loop (rarr : list string) (suffix : string) : string :=
  match rarr with
  | [] => suffix
  | seg :: rest =>
      if numeric_only seg || strings.HasPrefix seg "func"
      then spec_reduce_loop rest ("." ++ seg ++ suffix)
      else seg ++ suffix
  end.

Definition spec_funcName_reduction (pathFunc : string) : string :=
  spec_reduce_loop (rev (strings.Split pathFunc ".")) "".

(** The segments [getFuncNameSlog] absorbs. *)
Definition absorbed (seg : string) : bool :=
  strings.HasPrefix seg "func"
  || match strconv.Atoi seg with Some _ => true | None => false end.

Fixpoint no_dot (s : string) : bool :=
  match s with
  | EmptyString => true
  | String c t => negb (Ascii.eqb c ".") && no_dot t
  end.



(** The values [appendAttr] renders as [key=value]: neither a group,
    nor an error wrapper, nor a [LogValuer]. *)
Definition plain_value (v : Value) : bool :=
  match v with
  | GroupValue _ | LogValuerValue _ | AnyValue (any_logError _) => false
  | _ => true
  end.

(** What a derived handler [h2] shares with its parent [h], and the
    fields [clone] leaves at their zero value. *)
Definition keeps_sink_and_format (h h2 : handlerTextColor) : Prop :=
  w h2 = w h /\ timeFormat h2 = timeFormat h /\ level h2 = level h.

Definition configuration_reset (h2 : handlerTextColor) : Prop :=
  source h2 = false /\ addCxtAttr h2 = [] /\ slowThreshold h2 = 0.

(** [b'] is [b] with something appended. *)
Definition extends (b b' : string) : Prop := exists x, b' = b ++ x.

Section SqlBlocks.

Context {RT : GoRuntime}.

(** The three parts of the SQL trace block. *)
Definition sql_duration_block (color : string) (d : Z) : string :=
  color ++ ("[" ++ strconv_FormatFloat (Duration_Seconds d) "f" 4 ++ "] ") ++ Reset.

Definition sql_rows_block (ctx : Context) : string :=
  let c := ctx_Value ctx key_Rows in
  if negb (is_nil c) then Yellow ++ ("rows:" ++ fmt_v c ++ " ") ++ Reset else "".

Definition sql_text_block (ctx : Context) (lvl : Z) : string :=
  (if lvl =? LevelError then Red else Magenta)
  ++ (fmt_v (ctx_Value ctx key_Sql) ++ " ") ++ Reset ++ String newline "".


End SqlBlocks.

(** Induction on a value through the members of its groups and the
    results of its [LogValue]. *)
Section ValueInduction.

Variable P : Value -> Prop.
Hypothesis P_string : forall s, P (StringValue s).
Hypothesis P_int64 : forall n, P (Int64Value n).
Hypothesis P_uint64 : forall n, P (Uint64Value n).
Hypothesis P_float64 : forall f, P (Float64Value f).
Hypothesis P_bool : forall b, P (BoolValue b).
Hypothesis P_duration : forall d, P (DurationValue d).
Hypothesis P_time : forall t, P (TimeValue t).
Hypothesis P_any : forall a, P (AnyValue a).
Hypothesis P_group : forall g, Forall (fun a => P (Attr_Value a)) g -> P (GroupValue g).
Hypothesis P_returns : forall v, P v -> P (LogValuerValue (LogValue_returns v)).
Hypothesis P_panics : forall msg, P (LogValuerValue (LogValue_panics msg)).

Fixpoint Value_nested_ind (v : Value) : P v :=
  match v with
  | StringValue s => P_string s
  | Int64Value n => P_int64 n
  | Uint64Value n => P_uint64 n
  | Float64Value f => P_float64 f
  | BoolValue b => P_bool b
  | DurationValue d => P_duration d
  | TimeValue t => P_time t
  | AnyValue a => P_any a
  | GroupValue g =>
      P_group g
        ((fix members (g : list Attr) : Forall (fun a => P (Attr_Value a)) g :=
            match g with
            | [] => Forall_nil _
            | a :: rest =>
                Forall_cons a
                  (match a as a0 return P (Attr_Value a0) with
                   | mkAttr _ gv => Value_nested_ind gv
                   end)
                  (members rest)
            end) g)
  | LogValuerValue (LogValue_returns v') => P_returns v' (Value_nested_ind v')
  | LogValuerValue (LogValue_panics msg) => P_panics msg
  end.

End ValueInduction.

(* ------------------------------------------------------------------ *)
(** ** An instance of the runtime to run the definitions on

    Exact for [unicode.IsSpace], for [unicode.IsPrint] below U+0100 and
    for decimal integers; the other fields are simple stand-ins: no
    escaping in [Quote], no replacement, a time is printed as its number,
    and the [float64] of a duration is kept as its nanoseconds, printed
    in seconds by the [f] format.  The theorems below hold for every
    instance. *)

Module Example.

Definition decimal (n : Z) : string :=
  if n <? 0 then "-" ++ NilZero.string_of_uint (N.to_uint (Z.to_N (- n)))
  else NilZero.string_of_uint (N.to_uint (Z.to_N n)).

Definition IsSpace (r : Z) : bool :=
  ((9 <=? r) && (r <=? 13)) || (r =? 0x20) || (r =? 0x85) || (r =? 0xA0)
  || (r =? 0x1680) || ((0x2000 <=? r) && (r <=? 0x200a))
  || (r =? 0x2028) || (r =? 0x2029) || (r =? 0x202f) || (r =? 0x205f)
  || (r =? 0x3000).

Definition IsPrint (r : Z) : bool :=
  ((0x20 <=? r) && (r <=? 0x7e)) || ((0xa1 <=? r) && (r <=? 0xff) && negb (r =? 0xad)).

Definition IsLetter (r : Z) : bool :=
  ((65 <=? r) && (r <=? 90)) || ((97 <=? r) && (r <=? 122)).

Definition quoted (s : string) : string :=
  String (chr 34) (s ++ String (chr 34) "").

(** A duration in nanoseconds as seconds with four decimals. *)
Definition seconds4 (ns : Z) : string :=
  let q := (ns + 50000) / 100000 in
  let frac := q mod 10000 in
  decimal (q / 10000) ++ "."
  ++ (if frac <? 10 then "000" else if frac <? 100 then "00"
      else if frac <? 1000 then "0" else "")
  ++ decimal frac.

Definition levelName (l : Z) : string :=
  if l =? LevelDebug then "DEBUG"
  else if l =? LevelInfo then "INFO"
  else if l =? LevelWarn then "WARN"
  else if l =? LevelError then "ERROR"
  else "LEVEL(" ++ decimal l ++ ")".

Definition sprint (a : Any) : string :=
  match a with
  | any_nil => "<nil>"
  | any_string s => s
  | any_int64 n => decimal n
  | any_Duration d => decimal d ++ "ns"
  | any_Level l => levelName l
  | any_other name => name
  | _ => "?"
  end.

#[export] Instance runtime : GoRuntime := {
  unicode_IsSpace := IsSpace;
  unicode_IsPrint := IsPrint;
  unicode_IsLetter := IsLetter;
  strconv_Quote := quoted;
  strings_ReplaceAll := fun s _ _ => s;
  strconv_FormatInt := decimal;
  strconv_FormatUint := decimal;
  strconv_FormatFloat :=
    fun f fmt prec =>
      if Ascii.eqb fmt "f" && (prec =? 4) then seconds4 f else decimal f;
  Duration_Seconds := fun d => d;
  Duration_String := fun d => decimal d ++ "ns";
  Time_String := decimal;
  Time_Format := fun t _ => decimal t;
  Level_String := levelName;
  fmt_v := sprint;
  fmt_plus_v := sprint;
  shortFile := fun p => p
}.

Definition stdout : Writer := fun _ => Returns None.

(** A handler as [NewDevHandler] builds it for the options of a
    development setup. *)
Definition devOptions : Options :=
  {| opt_AddCxtAttr := ["request_id"];
     opt_W := stdout;
     opt_Source := true;
     opt_SlowThreshold := 2 * Second |}.

Definition dev : handlerTextColor := NewDevHandler devOptions.

Definition frame : Source :=
  {| Function := "github.com/acme/app/store.(*Repo).Find.func1.1";
     File := "/src/app/store/repo.go";
     Line := 42 |}.

Definition record (attrs : list Attr) : Record_ :=
  {| rec_Time := 0; rec_Message := "started"; rec_Level := LevelInfo;
     rec_PC := frame; rec_Attrs := attrs |}.

(** The same handler without the source block, a record with a time
    stamp, and the context the gorm adapter builds in [Trace]. *)
Definition quiet : handlerTextColor :=
  NewDevHandler {| opt_AddCxtAttr := ["request_id"]; opt_W := stdout;
                   opt_Source := false; opt_SlowThreshold := 0 |}.

Definition stamped : Record_ :=
  {| rec_Time := 1700000000; rec_Message := "started"; rec_Level := LevelInfo;
     rec_PC := frame; rec_Attrs := [] |}.

Definition traced : Record_ :=
  {| rec_Time := 0; rec_Message := ""; rec_Level := LevelInfo;
     rec_PC := frame; rec_Attrs := [] |}.

Definition traceCtx : Context :=
  [(key_Rows, any_int64 3);
   (key_Duration, any_Duration 250000000);
   (key_Sql, any_string "SELECT 1")].

(** The closed form of the table [safeSet]. *)
Definition safe_closed_form (b : Z) : bool :=
  (b =? 0x1b)
  || ((0x20 <=? b) && (b <=? 0x7f) && negb (b =? 0x22) && negb (b =? 0x5c)).

End Example.

(* ------------------------------------------------------------------ *)
(** ** [strconv], with the value returned beside an error *)

Module strconvE.

(** The [Err] of a [*strconv.NumError]. *)
Inductive NumErr : Type := ErrSyntax | ErrRange.

Definition maxUint64 : Z := 2 ^ 64 - 1.

(** The loop of [strconv.ParseUint(s, 10, 64)] over the bytes left, the
    accumulator [n] being a [uint64]. *)
Fixpoint ParseUint_loop (s : string) (n : Z) : Z * option NumErr :=
  match s with
  | EmptyString => (n, None)
  | String c t =>
      let b := byte_of c in
      if (48 <=? b) && (b <=? 57) then
        let d := b - 48 in
        let cutoff := maxUint64 / 10 + 1 in
        if cutoff <=? n then (maxUint64, Some ErrRange)
        else
          let n := (n * 10) mod 2 ^ 64 in
          let n1 := (n + d) mod 2 ^ 64 in
          if (n1 <? n) || (maxUint64 <? n1) then (maxUint64, Some ErrRange)
          else ParseUint_loop t n1
      else (0, Some ErrSyntax)
  end.

Definition ParseUint (s : string) : Z * option NumErr :=
  if len s =? 0 then (0, Some ErrSyntax) else ParseUint_loop s 0.

(** [strconv.ParseInt(s, 10, 0)] with a 64-bit [int]. *)
Definition ParseInt (s : string) : Z * option NumErr :=
  if len s =? 0 then (0, Some ErrSyntax)
  else
    let neg := at_ s 0 =? 45 in
    let s' := if strconv.is_sign (at_ s 0) then drop 1 s else s in
    let (un, err) := ParseUint s' in
    match err with
    | Some ErrSyntax => (0, Some ErrSyntax)
    | _ =>
        let cutoff := 2 ^ 63 in
        if negb neg && (cutoff <=? un) then (cutoff - 1, Some ErrRange)
        else if neg && (cutoff <? un) then (- cutoff, Some ErrRange)
        else (if neg then - un else un, None)
    end.

(** [strconv.Atoi] with a 64-bit [int]: the value and the error. *)
Definition Atoi (s : string) : Z * option NumErr :=
  let sLen := len s in
  if (0 <? sLen) && (sLen <? 19) then
    let s0 := s in
    let s' := if strconv.is_sign (at_ s 0) then drop 1 s else s in
    if len s' <? 1 then (0, Some ErrSyntax)
    else
      match strconv.digits s' 0 with
      | None => (0, Some ErrSyntax)
      | Some n => (if at_ s0 0 =? 45 then - n else n, None)
      end
  else ParseInt s.

End strconvE.

(* ------------------------------------------------------------------ *)
(** ** More of [strings] and [path] *)

(** [strings.Contains(s, substr)]. *)
Fixpoint strings_Contains (s substr : string) : bool :=
  strings.HasPrefix s substr
  || match s with
     | EmptyString => false
     | String _ t => strings_Contains t substr
     end.

(** [strings.HasSuffix(s, suffix)]:
    [len(s) >= len(suffix) && s[len(s)-len(suffix):] == suffix]. *)
Definition strings_HasSuffix (s suffix : string) : bool :=
  (String.length suffix <=? String.length s)%nat
  && String.eqb (drop (String.length s - String.length suffix) s) suffix.

(** [strings.Replace(s, old, new, 1)] for a one-byte [old]: the first
    occurrence of [old] is replaced. *)
Fixpoint strings_Replace1 (s : string) (old : ascii) (new : string) : string :=
  match s with
  | EmptyString => EmptyString
  | String c t =>
      if Ascii.eqb c old then new ++ t else String c (strings_Replace1 t old new)
  end.

(** The loop [for i := len(path) - 1; i >= 0 && path[i] != '/'; i--] of
    [path.Ext], with [k = i + 1]. *)
Fixpoint path_Ext_loop (path : string) (k : nat) : string :=
  match k with
  | O => EmptyString
  | S i =>
      if at_ path i =? 47 then EmptyString
      else if at_ path i =? 46 then drop i path
      else path_Ext_loop path i
  end.

Definition path_Ext (path : string) : string :=
  path_Ext_loop path (String.length path).

(* ------------------------------------------------------------------ *)
(** ** The gorm adapter *)

(** [getFileLine]: the named results [file] and [line], and the error
    handed to [slog.Error] ([None]: nothing is logged). *)
Definition getFileLine (fileLine : string) : string * Z * option strconvE.NumErr :=
  let arr := strings.Split fileLine ":" in
  if negb (Nat.eqb (List.length arr) 2) then (EmptyString, 0, None)
  else
    let file := nth 0 arr EmptyString in
    let (line, err) := strconvE.Atoi (nth 1 arr EmptyString) in
    (file, line, err).

(** The condition under which [getGormFuncName] attributes the call to a
    frame. *)
Definition attributable (frame : Source) : bool :=
  (negb (strings_Contains (Function frame) "gorm.io/gorm")
   || strings_HasSuffix (File frame) "_test.go")
  && negb (strings_HasSuffix (File frame) ".gen.go").

Definition zero_Frame : Source := {| Function := ""; File := ""; Line := 0 |}.

(** [getGormFuncName]: [length] is what [runtime.Callers(3, pcs[:])]
    returned (at most 13) and [frames] what [frames.Next()] yields, the
    zero frame once they are exhausted. *)
Fixpoint getGormFuncName (length : nat) (frames : list Source) : string :=
  match length with
  | O => EmptyString
  | S length' =>
      let frame := hd zero_Frame frames in
      if attributable frame
      then strings_Replace1 (path_Ext (Function frame)) "." ""
      else getGormFuncName length' (tl frames)
  end.

(** What [Trace] is called with and what it observes: the result of
    [fc()], [time.Since(begin)], [utils.FileWithLineNum()], the call
    stack, and [err.Error()] when [err] is not nil. *)
Record TraceCall : Type := mkTraceCall {
  trace_sql : string;
  trace_rows : Z;
  trace_elapsed : Z;
  trace_pathLine : string;
  trace_callers : nat;
  trace_frames : list Source;
  trace_err : option string
}.

(** A call of the logging facade: [ErrorContext] or [InfoContext]. *)
Record LogCall : Type := mkLogCall {
  log_ctx : Context;
  log_level : Z;
  log_msg : string
}.

(** The functions of the standard library [Trace] needs beside those of
    [GoRuntime]. *)
Class GormRuntime : Type := {
  (** [filepath.Split(p)] *)
  filepath_Split : string -> string * string;
  (** [path.Join(filepath.Base(dir), file)] *)
  path_Join_Base : string -> string -> string;
  (** [err.Error()] for the [*strconv.NumError] of [Atoi] on a text *)
  NumError_Error : string -> strconvE.NumErr -> string
}.

Section GormTrace.

Context {GR : GormRuntime}.

(** The [slog.Source] that [Trace] stores under [Source]. *)
Definition Trace_source (t : TraceCall) : Source :=
  let (dir, file) := filepath_Split (trace_pathLine t) in
  let '(file, line, _) := getFileLine file in
  let funcName := getGormFuncName (trace_callers t) (trace_frames t) in
  let pathFile := path_Join_Base dir file in
  {| Function := funcName; File := pathFile; Line := line |}.

(** The context [Trace] logs with. *)
Definition Trace_ctx (ctx : Context) (t : TraceCall) : Context :=
  let ctx := WithValue ctx key_Sql (any_string (trace_sql t)) in
  let ctx := WithValue ctx key_Rows (any_int64 (trace_rows t)) in
  let ctx := WithValue ctx key_Duration (any_Duration (trace_elapsed t)) in
  WithValue ctx key_Source (any_Source (Trace_source t)).

(** [Trace]: the calls of the logging facade, in order: the
    [slog.Error] of [getFileLine] when the line number does not parse
    (with the background context), then [g.Error] or [g.Info]. *)
Definition Trace (ctx : Context) (t : TraceCall) : list LogCall :=
  let (dir, file) := filepath_Split (trace_pathLine t) in
  let parse_error :=
    match getFileLine file with
    | (_, _, Some e) =>
        [ {| log_ctx := [];
             log_level := LevelError;
             log_msg := NumError_Error (nth 1 (strings.Split file ":") EmptyString) e |} ]
    | (_, _, None) => []
    end in
  let ctx' := Trace_ctx ctx t in
  (parse_error
   ++ [ match trace_err t with
        | Some msg => {| log_ctx := ctx'; log_level := LevelError; log_msg := msg |}
        | None => {| log_ctx := ctx'; log_level := LevelInfo; log_msg := "" |}
        end ])%list.

End GormTrace.

(** [withOutParams.ParamsFilter]. *)
Definition ParamsFilter (sql : string) (params : list Any) : string * list Any :=
  (sql, []).

(* ------------------------------------------------------------------ *)
(** ** More notions used to state the properties *)

Definition Outcome_map {A B : Type} (f : A -> B) (m : Outcome A) : Outcome B :=
  match m with
  | Returns a => Returns (f a)
  | Panics msg => Panics msg
  end.

Fixpoint sconcat (l : list string) : string :=
  match l with
  | [] => EmptyString
  | x :: rest => x ++ sconcat rest
  end.

Fixpoint no_byte (b : Z) (s : string) : bool :=
  match s with
  | EmptyString => true
  | String c t => negb (byte_of c =? b) && no_byte b t
  end.

(** Every byte of [s] satisfies [p]; the bytes of [s] as numbers. *)
Fixpoint all_bytes (p : Z -> bool) (s : string) : bool :=
  match s with
  | EmptyString => true
  | String c t => p (byte_of c) && all_bytes p t
  end.

Fixpoint bytes (s : string) : list Z :=
  match s with
  | EmptyString => []
  | String c t => byte_of c :: bytes t
  end.

(** A text whose last byte is [c], and a text that is empty or ends in a
    space. *)
Definition ends_with (c : ascii) (s : string) : Prop :=
  exists body, s = body ++ String c "".

Definition closed_text (s : string) : Prop := s = "" \/ ends_with " " s.

(** The bound attributes of a handler are empty or end in a space. *)
Definition attrsPrefix_closed (h : handlerTextColor) : Prop :=
  attrsPrefix h = "" \/ exists p, attrsPrefix h = p ++ " ".

Section MoreNotions.

Context {RT : GoRuntime}.

(** The buffer of [Handle] when it is about to replace the last byte:
    everything [Handle] does up to and including [appendSql]. *)
Definition handlerTextColor_render (h : handlerTextColor) (ctx : Context) (r : Record_)
  : Outcome string :=
  let buf := "" in
  let buf :=
    if negb (Time_IsZero (rec_Time r))
    then appendTime h buf (rec_Time r) ++ " "
    else buf in
  let buf := appendLevel h buf (rec_Level r) ++ " " in
  let f := rec_PC r in
  let buf :=
    if source h && negb (String.eqb (File f) "") then
      match ctx_Value ctx key_Source with
      | any_Source c => appendSource h buf c
      | _ =>
          let src := {| Function := Function f; File := File f; Line := Line f |} in
          appendSource h buf src
      end
    else buf in
  let buf := appendMessage h buf (rec_Level r) (rec_Message r) in
  buf <- appendAttrs h buf (rec_Attrs r) (groupPrefix h) (groups h) ;;
  let buf := AddValueCtx h ctx buf in
  let buf := if 0 <? len (attrsPrefix h) then buf ++ attrsPrefix h else buf in
  Returns (appendSql h ctx (rec_Level r) buf).

(** What [AddValueCtx] appends for one key that is present. *)
Definition ctx_attr_text (ctx : Context) (k : string) : string :=
  Faint ++ (k ++ "=") ++ Reset ++ (fmt_v (ctx_Value ctx k) ++ " ").

(** The attributes the middleware adds to a record. *)
Definition enrich_attrs {H : Type} (m : HandlerMiddleware H) (ctx : Context) (pc : Source)
  : list Attr :=
  (map (fun k => mkAttr k (slog_AnyValue (ctx_Value ctx k)))
       (filter (fun k => negb (is_nil (ctx_Value ctx k))) (mw_addCxtAttr m))
   ++ (if is_nil (ctx_Value ctx key_Sql) then []
       else [mkAttr key_Sql (slog_AnyValue (ctx_Value ctx key_Sql))])
   ++ (if mw_source m && is_nil (ctx_Value ctx key_Source)
          && negb (String.eqb (File pc) "")
       then [mkAttr key_Source
               (AnyValue (any_SourcePtr
                  (Some {| Function := getFuncNameSlog (Function pc);
                           File := shortFile (File pc);
                           Line := Line pc |})))]
       else []))%list.

End MoreNotions.

Section LineNotions.

Context {RT : GoRuntime}.

(** The end of [Handle]: the last byte of the buffer becomes a newline
    and the line goes to the sink of the handler. *)
Definition write_line (h : handlerTextColor) (buf : string) : Outcome HandleResult :=
  let buf := set_last buf newline in
  e <- w h buf ;;
  Returns {| written := Some buf; err := e |}.

(** What [Handle] writes before the attributes when it writes no source
    block: the time, the level and the message. *)
Definition plain_head (h : handlerTextColor) (r : Record_) : string :=
  let buf := "" in
  let buf :=
    if negb (Time_IsZero (rec_Time r))
    then appendTime h buf (rec_Time r) ++ " "
    else buf in
  let buf := appendLevel h buf (rec_Level r) ++ " " in
  appendMessage h buf (rec_Level r) (rec_Message r).

End LineNotions.

Module ExampleGorm.

(** Stand-ins for slash-separated paths without [.] or [..] elements. *)
Definition split_path (p : string) : string * string :=
  let pieces := strings.Split p "/" in
  match removelast pieces with
  | [] => ("", last pieces "")
  | dirs => (strings.Join dirs "/" ++ "/", last pieces "")
  end.

Definition join_base (dir file : string) : string :=
  match filter (fun x => negb (String.eqb x "")) (strings.Split dir "/") with
  | [] => file
  | d :: ds => last (d :: ds) "" ++ "/" ++ file
  end.

#[export] Instance runtime : GormRuntime := {
  filepath_Split := split_path;
  path_Join_Base := join_base;
  NumError_Error := fun text _ => "strconv.Atoi: parsing " ++ text
}.

Definition frames : list Source :=
  [ {| Function := "gorm.io/gorm.(*processor).Execute";
       File := "/mod/gorm.io/gorm/callbacks.go"; Line := 130 |};
    {| Function := "github.com/acme/app/dal/query.userDo.First";
       File := "/src/app/dal/query/users.gen.go"; Line := 77 |};
    {| Function := "github.com/acme/app/store.(*Repo).Find";
       File := "/src/app/store/repo.go"; Line := 42 |} ].

Definition call : TraceCall :=
  {| trace_sql := "SELECT 1"; trace_rows := 3; trace_elapsed := 250000000;
     trace_pathLine := "/src/app/store/repo.go:42"; trace_callers := 3;
     trace_frames := frames;
     trace_err := None |}.

End ExampleGorm.

(* ================================================================== *)
(** * Properties *)

(** ** Strings *)

Lemma sapp_assoc (a b c : string) : (a ++ b) ++ c = a ++ (b ++ c).
Proof. induction a as [|x a IH]; simpl; [reflexivity | now rewrite IH]. Qed.

Lemma sapp_nil_r (a : string) : a ++ "" = a.
Proof. induction a as [|x a IH]; simpl; [reflexivity | now rewrite IH]. Qed.

Lemma slen_app (a b : string) :
  String.length (a ++ b) = (String.length a + String.length b)%nat.
Proof. induction a as [|x a IH]; simpl; [reflexivity | now rewrite IH]. Qed.

Lemma sapp_inv_head (a b c : string) : a ++ b = a ++ c -> b = c.
Proof.
  induction a as [|x a IH]; simpl; intros E; [exact E | injection E; auto].
Qed.

Lemma set_last_snoc (s : string) (c c' : ascii) :
  set_last (s ++ String c "") c' = s ++ String c' "".
Proof.
  induction s as [|x s IH]; simpl; [reflexivity|].
  rewrite IH. destruct s; reflexivity.
Qed.

Lemma byte_of_range (c : ascii) : 0 <= byte_of c < 256.
Proof.
  unfold byte_of. pose proof (N_ascii_bounded c). lia.
Qed.

Lemma len_nonneg (s : string) : 0 <= len s.
Proof. unfold len. lia. Qed.

Lemma len_String (c : ascii) (s : string) : len (String c s) = len s + 1.
Proof. unfold len. simpl String.length. lia. Qed.

Lemma drop_length (n : nat) (s : string) :
  String.length (drop n s) = (String.length s - n)%nat.
Proof.
  revert s; induction n as [|n IH]; intros [|c s]; simpl; auto; lia.
Qed.

(** ** The dev handler: [Enabled] *)

(** C10: whatever the context, the severity and the handler's own
    [level], [Enabled] of the dev handler answers [true]; the level floor
    filters nothing, [LevelDebug] included. *)
Theorem Enabled_always_true :
  forall (h : handlerTextColor) (ctx : Context) (lvl : Z),
    handlerTextColor_Enabled h ctx lvl = true
    /\ handlerTextColor_Enabled h ctx LevelDebug = true.
Proof. intros h ctx lvl. split; reflexivity. Qed.

(** ** UTF-8 decoding *)

Example decode_ascii : utf8.DecodeRuneInString "a" = (97, 1%nat).
Proof. reflexivity. Qed.

Example decode_e_acute :
  utf8.DecodeRuneInString (String (chr 0xC3) (String (chr 0xA9) "x")) = (0xE9, 2%nat).
Proof. reflexivity. Qed.

Example decode_euro :
  utf8.DecodeRuneInString
    (String (chr 0xE2) (String (chr 0x82) (String (chr 0xAC) ""))) = (0x20AC, 3%nat).
Proof. reflexivity. Qed.

Example decode_truncated :
  utf8.DecodeRuneInString (String (chr 0xE2) (String (chr 0x82) "")) = (utf8.RuneError, 1%nat).
Proof. reflexivity. Qed.

Example decode_continuation_first :
  utf8.DecodeRuneInString (String (chr 0x80) "a") = (utf8.RuneError, 1%nat).
Proof. reflexivity. Qed.

Example encode_euro :
  utf8.EncodeRune 0x20AC = String (chr 0xE2) (String (chr 0x82) (String (chr 0xAC) "")).
Proof. reflexivity. Qed.

Lemma land_le_r (a b : Z) : 0 <= a -> 0 <= b -> Z.land a b <= b.
Proof.
  intros Ha Hb. rewrite <- (Z2N.id a), <- (Z2N.id b) at 1 by assumption.
  rewrite <- N2Z.inj_land.
  pose proof (N.land_le_r (Z.to_N a) (Z.to_N b)). lia.
Qed.

Lemma lor_ge_l (a b : Z) : 0 <= a -> 0 <= b -> a <= Z.lor a b.
Proof.
  intros Ha Hb. pose proof (Z.add_lor_land a b).
  pose proof (land_le_r a b Ha Hb). lia.
Qed.

Lemma lor_ge_r (a b : Z) : 0 <= a -> 0 <= b -> b <= Z.lor a b.
Proof. intros. rewrite Z.lor_comm. now apply lor_ge_l. Qed.

Lemma land_mask_bounds (b k : Z) : 0 <= k -> 0 <= Z.land b (Z.ones k) < 2 ^ k.
Proof.
  intros Hk. rewrite Z.land_ones by assumption. apply Z.mod_pos_bound. 
  apply Z.pow_pos_nonneg; lia.
Qed.

Ltac case_cmp :=
  match goal with
  | |- context [Z.ltb ?a ?b] => destruct (Z.ltb_spec a b)
  | |- context [Z.leb ?a ?b] => destruct (Z.leb_spec a b)
  | |- context [Z.eqb ?a ?b] => destruct (Z.eqb_spec a b)
  end.

Lemma decode_size_pos (c : ascii) (t : string) :
  (1 <= snd (utf8.DecodeRuneInString (String c t)))%nat.
Proof.
  unfold utf8.DecodeRuneInString.
  replace (len (String c t) <? 1) with false
    by (symmetry; apply Z.ltb_ge; rewrite len_String; pose proof (len_nonneg t); lia).
  cbv zeta.
  repeat match goal with
  | |- context [if ?b then _ else _] => destruct b
  end; simpl; lia.
Qed.

Lemma decode_ascii_byte (c : ascii) (t : string) :
  byte_of c < 128 -> utf8.DecodeRuneInString (String c t) = (byte_of c, 1%nat).
Proof.
  intros Hb. unfold utf8.DecodeRuneInString.
  replace (len (String c t) <? 1) with false
    by (symmetry; apply Z.ltb_ge; rewrite len_String; pose proof (len_nonneg t); lia).
  cbv zeta. change (at_ (String c t) 0) with (byte_of c).
  unfold utf8.first.
  destruct (Z.ltb_spec (byte_of c) 128); [|lia].
  change (utf8.as_ >=? utf8.as_) with true. cbv iota.
  change (Z.shiftr (utf8.int32 (Z.shiftl utf8.as_ 31)) 31) with 0.
  change (Z.lnot 0) with (-1).
  now rewrite Z.land_m1_r, Z.land_0_r, Z.lor_0_r.
Qed.


Lemma lor_lower_l (a b m : Z) : 0 <= m -> 0 <= b -> m <= a -> m <= Z.lor a b.
Proof. intros Hm Hb Ha. pose proof (lor_ge_l a b). lia. Qed.

Lemma lor_lower_r (a b m : Z) : 0 <= m -> 0 <= a -> m <= b -> m <= Z.lor a b.
Proof. intros Hm Ha Hb. pose proof (lor_ge_r a b). lia. Qed.

Lemma shifted_mask_nonneg (b k j : Z) : 0 <= k -> 0 <= Z.shiftl (Z.land b (Z.ones k)) j.
Proof.
  intros Hk. apply Z.shiftl_nonneg. apply (land_mask_bounds b k Hk).
Qed.

Lemma shifted_mask_lower (b k j lo m : Z) :
  0 <= k -> 0 <= j -> lo <= b mod 2 ^ k -> m <= lo * 2 ^ j ->
  m <= Z.shiftl (Z.land b (Z.ones k)) j.
Proof.
  intros Hk Hj Hlo Hm. rewrite Z.shiftl_mul_pow2, Z.land_ones by assumption.
  assert (0 < 2 ^ j) by (apply Z.pow_pos_nonneg; lia). nia.
Qed.

Ltac eval_cmp :=
  repeat match goal with
  | |- context [Z.geb ?a ?b] =>
      let v := eval vm_compute in (Z.geb a b) in
      match v with true => idtac | false => idtac end;
      change (Z.geb a b) with v; cbv iota
  | |- context [Z.leb ?a ?b] =>
      let v := eval vm_compute in (Z.leb a b) in
      match v with true => idtac | false => idtac end;
      change (Z.leb a b) with v; cbv iota
  end.

Ltac first_is x :=
  let v := eval vm_compute in (Z.land x 7) in change (Z.land x 7) with v;
  let r := eval vm_compute in (utf8.acceptRanges (Z.shiftr x 4)) in
  change (utf8.acceptRanges (Z.shiftr x 4)) with r;
  cbn [fst snd]; eval_cmp.

Ltac nonneg_mask :=
  first [ apply shifted_mask_nonneg; lia
        | apply land_mask_bounds; lia
        | apply Z.lor_nonneg; split; nonneg_mask ].

Lemma decode_nonascii_ge (c : ascii) (t : string) :
  128 <= byte_of c -> 128 <= fst (utf8.DecodeRuneInString (String c t)).
Proof.
  intros Hb. pose proof (byte_of_range c) as Hr.
  unfold utf8.DecodeRuneInString.
  replace (len (String c t) <? 1) with false
    by (symmetry; apply Z.ltb_ge; rewrite len_String; pose proof (len_nonneg t); lia).
  cbv zeta. change (at_ (String c t) 0) with (byte_of c).
  set (b0 := byte_of c) in *.
  set (b1 := at_ (String c t) 1).
  set (b2 := at_ (String c t) 2).
  set (b3 := at_ (String c t) 3).
  set (n := len (String c t)).
  change utf8.maskx with (Z.ones 6). change utf8.mask2 with (Z.ones 5).
  change utf8.mask3 with (Z.ones 4). change utf8.mask4 with (Z.ones 3).
  unfold utf8.first.
  destruct (Z.ltb_spec b0 128); [lia|].
  destruct (Z.ltb_spec b0 194).
  { vm_compute (utf8.xx >=? utf8.as_). cbv iota. cbn [fst].
    change (Z.shiftr (utf8.int32 (Z.shiftl utf8.xx 31)) 31) with (-1).
    change (Z.lnot (-1)) with 0.
    rewrite Z.land_0_r, Z.land_m1_r, Z.lor_0_l. vm_compute. discriminate. }
  assert (P5 : 2 ^ 5 = 32) by reflexivity.
  assert (P4 : 2 ^ 4 = 16) by reflexivity.
  assert (P3 : 2 ^ 3 = 8) by reflexivity.
  assert (P6 : 2 ^ 6 = 64) by reflexivity.
  destruct (Z.ltb_spec b0 224).
  { first_is utf8.s1. repeat case_cmp; cbn [orb fst]; try (vm_compute; discriminate).
    apply lor_lower_l; [lia | nonneg_mask |].
    apply (shifted_mask_lower _ _ _ 2); try lia. rewrite P5. Z.div_mod_to_equations. lia. }
  destruct (Z.eqb_spec b0 224).
  { first_is utf8.s2. repeat case_cmp; cbn [orb fst]; try (vm_compute; discriminate).
    apply lor_lower_l; [lia | nonneg_mask |].
    apply lor_lower_r; [lia | nonneg_mask |].
    apply (shifted_mask_lower _ _ _ 32); try lia. rewrite P6. Z.div_mod_to_equations. lia. }
  destruct (Z.ltb_spec b0 237).
  { first_is utf8.s3. repeat case_cmp; cbn [orb fst]; try (vm_compute; discriminate).
    apply lor_lower_l; [lia | nonneg_mask |].
    apply lor_lower_l; [lia | nonneg_mask |].
    apply (shifted_mask_lower _ _ _ 1); try lia. rewrite P4. Z.div_mod_to_equations. lia. }
  destruct (Z.eqb_spec b0 237).
  { first_is utf8.s4. repeat case_cmp; cbn [orb fst]; try (vm_compute; discriminate).
    apply lor_lower_l; [lia | nonneg_mask |].
    apply lor_lower_l; [lia | nonneg_mask |].
    apply (shifted_mask_lower _ _ _ 1); try lia. rewrite P4. Z.div_mod_to_equations. lia. }
  destruct (Z.ltb_spec b0 240).
  { first_is utf8.s3. repeat case_cmp; cbn [orb fst]; try (vm_compute; discriminate).
    apply lor_lower_l; [lia | nonneg_mask |].
    apply lor_lower_l; [lia | nonneg_mask |].
    apply (shifted_mask_lower _ _ _ 1); try lia. rewrite P4. Z.div_mod_to_equations. lia. }
  destruct (Z.eqb_spec b0 240).
  { first_is utf8.s5. repeat case_cmp; cbn [orb fst]; try (vm_compute; discriminate).
    apply lor_lower_l; [lia | nonneg_mask |].
    apply lor_lower_l; [lia | nonneg_mask |].
    apply lor_lower_r; [lia | nonneg_mask |].
    apply (shifted_mask_lower _ _ _ 16); try lia. rewrite P6. Z.div_mod_to_equations. lia. }
  destruct (Z.ltb_spec b0 244).
  { first_is utf8.s6. repeat case_cmp; cbn [orb fst]; try (vm_compute; discriminate).
    apply lor_lower_l; [lia | nonneg_mask |].
    apply lor_lower_l; [lia | nonneg_mask |].
    apply lor_lower_l; [lia | nonneg_mask |].
    apply (shifted_mask_lower _ _ _ 1); try lia. rewrite P3. Z.div_mod_to_equations. lia. }
  destruct (Z.eqb_spec b0 244).
  { first_is utf8.s7. repeat case_cmp; cbn [orb fst]; try (vm_compute; discriminate).
    apply lor_lower_l; [lia | nonneg_mask |].
    apply lor_lower_l; [lia | nonneg_mask |].
    apply lor_lower_l; [lia | nonneg_mask |].
    apply (shifted_mask_lower _ _ _ 1); try lia. rewrite P3. Z.div_mod_to_equations. lia. }
  vm_compute (utf8.xx >=? utf8.as_). cbv iota. cbn [fst].
  change (Z.shiftr (utf8.int32 (Z.shiftl utf8.xx 31)) 31) with (-1).
  change (Z.lnot (-1)) with 0.
  rewrite Z.land_0_r, Z.land_m1_r, Z.lor_0_l. vm_compute. discriminate.
Qed.

(** ** The quoting predicate *)

(** The table [safeSet] holds [true] for ESC and for the bytes from the
    space to DEL, the double quote and the backslash excepted. *)
Lemma safeSet_table :
  forallb (fun n => Bool.eqb (safeSet (Z.of_nat n)) (Example.safe_closed_form (Z.of_nat n)))
          (seq 0 256) = true.
Proof. vm_compute. reflexivity. Qed.

Example needsQuoting_samples :
  map (needsQuoting (RT := Example.runtime))
      [""; "abc"; "a b"; "a=b"; "a\b"; String (chr 34) "x";
       String (chr 0xC3) (String (chr 0xA9) ""); String (chr 0xC3) "";
       String (chr 27) "[0m"]
  = [true; false; true; true; false; true; false; true; false].
Proof. vm_compute. reflexivity. Qed.

Section Quoting.

Context {RT : GoRuntime}.

Lemma needsQuoting_loop_runes (fuel : nat) (s : string) :
  (String.length s <= fuel)%nat ->
  needsQuoting_loop fuel s = existsb quote_trigger (runes_loop fuel s).
Proof.
  revert s; induction fuel as [|fuel IH]; intros s L.
  - reflexivity.
  - destruct s as [|c t]; [reflexivity|].
    simpl needsQuoting_loop. simpl runes_loop.
    destruct (Z.ltb_spec (byte_of c) utf8.RuneSelf) as [Hlt|Hge].
    + rewrite (decode_ascii_byte c t Hlt). simpl existsb.
      unfold quote_trigger at 1.
      destruct (Z.ltb_spec (byte_of c) utf8.RuneSelf); [|lia].
      simpl drop. rewrite <- IH by (simpl in L; lia).
      destruct (negb (byte_of c =? 92)
                && ((byte_of c =? 32) || (byte_of c =? 61) || negb (safeSet (byte_of c))));
        reflexivity.
    + pose proof (decode_nonascii_ge c t Hge) as Hr.
      pose proof (decode_size_pos c t) as Hs.
      destruct (utf8.DecodeRuneInString (String c t)) as [r size].
      simpl fst in Hr. simpl snd in Hs. simpl existsb.
      unfold quote_trigger at 1.
      destruct (Z.ltb_spec r utf8.RuneSelf); [unfold utf8.RuneSelf in *; lia|].
      rewrite <- IH.
      * destruct ((r =? utf8.RuneError) || unicode_IsSpace r || negb (unicode_IsPrint r));
          reflexivity.
      * rewrite drop_length. simpl String.length in *. lia.
Qed.

Lemma needsQuoting_runes (s : string) :
  needsQuoting s = (len s =? 0) || existsb quote_trigger (runes s).
Proof.
  unfold needsQuoting, runes.
  destruct (len s =? 0); [reflexivity|].
  now rewrite needsQuoting_loop_runes.
Qed.

Lemma quote_trigger_iff (r : Z) :
  quote_trigger r = true <->
  r = 32 \/ r = 61
  \/ (r < 128 /\ r <> 92 /\ safeSet r = false)
  \/ (128 <= r /\ (r = utf8.RuneError \/ unicode_IsSpace r = true
                   \/ unicode_IsPrint r = false)).
Proof.
  unfold quote_trigger, utf8.RuneSelf.
  destruct (Z.ltb_spec r 128) as [Hlt|Hge].
  - rewrite andb_true_iff, negb_true_iff, !orb_true_iff, negb_true_iff,
      Z.eqb_neq, !Z.eqb_eq.
    split.
    + intros [Hne [[H|H]|H]]; [now left | now right; left |].
      right; right; left. now repeat split.
    + intros [H|[H|[H|H]]].
      * split; [lia | auto].
      * split; [lia | auto].
      * destruct H as (_ & Hne & Hs). auto.
      * lia.
  - rewrite !orb_true_iff, negb_true_iff, Z.eqb_eq.
    split.
    + intros H. right; right; right. split; [assumption|]. tauto.
    + intros [H|[H|[H|H]]]; try lia.
      destruct H as (_ & H). tauto.
Qed.

End Quoting.

(** C3 (as stated, refuted): the backslash is outside the safe set
    ([safeSet] holds [false] for it), so the specification's rule asks
    for quoting, but [needsQuoting] exempts it: on the one-character
    string made of a backslash it returns [false], whatever the Unicode
    tables are. *)
Lemma needsQuoting_backslash_not_quoted :
  exists s : string,
    s = "\" /\ safeSet 92 = false
    /\ forall RT : GoRuntime,
         @needsQuoting RT s = false /\ @spec_quoting_required RT s = true.
Proof.
  exists "\". repeat split.
Qed.

(** C3 (amended): [needsQuoting] returns [true] exactly when the string
    is empty or one of its runes is a space, an [=], an ASCII character
    other than the backslash outside the safe set, or a non-ASCII rune
    that is [RuneError] (an invalid encoding, or U+FFFD), a Unicode
    space or not printable; in particular it returns [true] on the empty
    string and [false] on every string with none of these. *)
Theorem needsQuoting_exactly :
  forall (RT : GoRuntime) (s : string),
    needsQuoting s = true <->
    s = ""
    \/ exists r : Z,
         In r (runes s)
         /\ (r = 32 \/ r = 61
             \/ (r < 128 /\ r <> 92 /\ safeSet r = false)
             \/ (128 <= r /\ (r = utf8.RuneError \/ unicode_IsSpace r = true
                              \/ unicode_IsPrint r = false))).
Proof.
  intros RT s. rewrite needsQuoting_runes, orb_true_iff, existsb_exists.
  split.
  - intros [E|(r & Hin & Ht)].
    + left. apply Z.eqb_eq in E. destruct s; [reflexivity|].
      rewrite len_String in E. pose proof (len_nonneg s). lia.
    + right. exists r. split; [assumption|]. now apply quote_trigger_iff.
  - intros [->|(r & Hin & Ht)].
    + now left.
    + right. exists r. split; [assumption|]. now apply quote_trigger_iff.
Qed.

(** ** Function-name reduction *)

Lemma Split_nonempty (s : string) (sep : ascii) :
  exists piece pieces, strings.Split s sep = piece :: pieces.
Proof.
  induction s as [|c s IH]; simpl; [now eexists; eexists|].
  destruct (Ascii.eqb c sep); [now eexists; eexists|].
  destruct IH as (x & l & ->). now eexists; eexists.
Qed.

Lemma Split_app_sep (p s : string) (sep : ascii) :
  strings.Split (p ++ String sep s) sep
  = (strings.Split p sep ++ strings.Split s sep)%list.
Proof.
  induction p as [|c p IH]; simpl.
  - now rewrite Ascii.eqb_refl.
  - destruct (Ascii.eqb c sep); [now rewrite IH|].
    rewrite IH. destruct (Split_nonempty p sep) as (x & l & ->). reflexivity.
Qed.

Lemma Split_no_dot (s : string) : no_dot s = true -> strings.Split s "." = [s].
Proof.
  induction s as [|c s IH]; simpl; [reflexivity|].
  intros E. apply andb_prop in E as [Ec Es].
  apply negb_true_iff in Ec. rewrite Ec, (IH Es). reflexivity.
Qed.

Lemma Join_cons2 (e e' : string) (l : list string) (sep : string) :
  strings.Join (e :: e' :: l) sep = e ++ sep ++ strings.Join (e' :: l) sep.
Proof. reflexivity. Qed.

Lemma Split_Join (e : string) (l : list string) :
  Forall (fun s => no_dot s = true) (e :: l) ->
  strings.Split (strings.Join (e :: l) ".") "." = e :: l.
Proof.
  revert e; induction l as [|e' l IH]; intros e F.
  - apply Split_no_dot. now inversion F.
  - rewrite Join_cons2. inversion F as [|? ? He F']; subst.
    change ("." ++ strings.Join (e' :: l) ".")
      with (String "." (strings.Join (e' :: l) ".")).
    rewrite Split_app_sep, (Split_no_dot e He), (IH e' F'). reflexivity.
Qed.

Lemma Join_snoc (e : string) (l : list string) (s sep : string) :
  strings.Join ((e :: l) ++ [s])%list sep = strings.Join (e :: l) sep ++ sep ++ s.
Proof.
  revert e; induction l as [|e' l IH]; intros e.
  - reflexivity.
  - change ((e :: e' :: l) ++ [s])%list with (e :: ((e' :: l) ++ [s]))%list.
    change ((e' :: l) ++ [s])%list with (e' :: (l ++ [s]))%list.
    rewrite Join_cons2.
    change (e' :: (l ++ [s]))%list with ((e' :: l) ++ [s])%list.
    rewrite IH, Join_cons2. now rewrite !sapp_assoc.
Qed.

(** The loop stops at the first segment that is not absorbed and returns
    it followed by the absorbed segments, each after a dot. *)
Lemma getFuncNameSlog_loop_stops (head : string) (rsuf rest : list string) (acc : string) :
  absorbed head = false ->
  Forall (fun s => absorbed s = true) rsuf ->
  getFuncNameSlog_loop (rsuf ++ head :: rest)%list acc
  = strings.Join (head :: rev rsuf) "." ++ acc.
Proof.
  intros Hh. revert acc. induction rsuf as [|s rsuf IH]; intros acc F.
  - simpl. unfold absorbed in Hh. now rewrite Hh.
  - inversion F as [|? ? Hs F']; subst.
    change ((s :: rsuf) ++ head :: rest)%list with (s :: (rsuf ++ head :: rest))%list.
    simpl getFuncNameSlog_loop. unfold absorbed in Hs. rewrite Hs.
    rewrite (IH _ F').
    change (head :: rev (s :: rsuf)) with ((head :: rev rsuf) ++ [s])%list.
    rewrite Join_snoc. now rewrite !sapp_assoc.
Qed.

Lemma getFuncNameSlog_of_pieces (pre : list string) (head : string) (suf : list string) :
  absorbed head = false ->
  Forall (fun s => absorbed s = true) suf ->
  getFuncNameSlog_loop (rev (pre ++ head :: suf)) "" = strings.Join (head :: suf) ".".
Proof.
  intros Hh F.
  rewrite rev_app_distr. simpl rev. rewrite <- app_assoc. simpl app.
  rewrite getFuncNameSlog_loop_stops; auto.
  - now rewrite rev_involutive, sapp_nil_r.
  - apply Forall_forall. intros x Hx. apply In_rev in Hx.
    now apply (proj1 (Forall_forall _ _) F).
Qed.

Lemma getFuncNameSlog_prefixed (p head : string) (suf : list string) :
  no_dot head = true -> Forall (fun s => no_dot s = true) suf ->
  absorbed head = false -> Forall (fun s => absorbed s = true) suf ->
  getFuncNameSlog (p ++ "." ++ strings.Join (head :: suf) ".")
  = strings.Join (head :: suf) ".".
Proof.
  intros Hd Fd Ha Fa. unfold getFuncNameSlog.
  change ("." ++ strings.Join (head :: suf) ".")
    with (String "." (strings.Join (head :: suf) ".")).
  rewrite Split_app_sep, Split_Join by now constructor.
  destruct (strings.Split p ".") as [|x l] eqn:E.
  - destruct (Split_nonempty p ".") as (y & k & E'). congruence.
  - simpl List.length. simpl Nat.eqb.
    now apply getFuncNameSlog_of_pieces.
Qed.

Lemma getFuncNameSlog_unprefixed (head : string) (suf : list string) :
  no_dot head = true -> Forall (fun s => no_dot s = true) suf ->
  absorbed head = false -> Forall (fun s => absorbed s = true) suf ->
  getFuncNameSlog (strings.Join (head :: suf) ".") = strings.Join (head :: suf) ".".
Proof.
  intros Hd Fd Ha Fa. unfold getFuncNameSlog.
  rewrite Split_Join by now constructor.
  simpl List.length. simpl Nat.eqb.
  now apply (getFuncNameSlog_of_pieces []).
Qed.

Lemma digits_all_digits (s : string) (n : Z) :
  all_digits s = true -> exists m, strconv.digits s n = Some m.
Proof.
  revert n; induction s as [|c s IH]; intros n; simpl; [now eexists|].
  intros E. apply andb_prop in E as [Ec Es]. unfold is_digit in Ec.
  apply andb_prop in Ec as [E1 E2]. apply Z.leb_le in E1, E2.
  replace ((byte_of c - 48) mod 256) with (byte_of c - 48)
    by (symmetry; apply Z.mod_small; lia).
  destruct (Z.ltb_spec 9 (byte_of c - 48)); [lia|]. now apply IH.
Qed.

(** A segment of at most 18 decimal digits is one [strconv.Atoi] accepts. *)
Lemma numeric_only_absorbed (seg : string) :
  numeric_only seg = true -> (String.length seg < 19)%nat -> absorbed seg = true.
Proof.
  unfold numeric_only, absorbed. intros E L.
  apply andb_prop in E as [Ene Ed]. apply negb_true_iff in Ene.
  apply String.eqb_neq in Ene.
  destruct seg as [|c seg]; [congruence|].
  apply orb_true_iff; right.
  unfold strconv.Atoi.
  replace ((0 <? len (String c seg)) && (len (String c seg) <? 19)) with true.
  2:{ symmetry. apply andb_true_iff. unfold len. split.
      - apply Z.ltb_lt. simpl String.length. lia.
      - apply Z.ltb_lt. lia. }
  assert (Hs : strconv.is_sign (at_ (String c seg) 0) = false).
  { simpl at_. simpl in Ed. apply andb_prop in Ed as [Ec _].
    unfold is_digit in Ec. apply andb_prop in Ec as [E1 E2].
    apply Z.leb_le in E1, E2. unfold strconv.is_sign.
    apply orb_false_iff. split; apply Z.eqb_neq; lia. }
  rewrite Hs.
  replace (len (String c seg) <? 1) with false
    by (symmetry; apply Z.ltb_ge; rewrite len_String; pose proof (len_nonneg seg); lia).
  destruct (digits_all_digits (String c seg) 0 Ed) as (m & ->). reflexivity.
Qed.

(** C7 (as stated, refuted): a segment of twenty digits is numeric-only,
    yet [strconv.Atoi] rejects it (it does not fit an [int]), so
    [getFuncNameSlog] does not absorb it: it becomes the whole display
    name, where the specification's rule yields [Method.<digits>]. *)
Lemma getFuncNameSlog_long_number_not_absorbed :
  numeric_only "99999999999999999999" = true
  /\ getFuncNameSlog "pkg.Method.99999999999999999999" = "99999999999999999999"
  /\ spec_funcName_reduction "pkg.Method.99999999999999999999"
     = "Method.99999999999999999999".
Proof. repeat split; vm_compute; reflexivity. Qed.

(** C7 (amended): [getFuncNameSlog] splits the name on [.] and, from the
    end, absorbs every segment that [strconv.Atoi] accepts or that starts
    with [func], each after a dot, and stops at the first other segment
    [head], which becomes the head of the result: for a name whose last
    segments are [head :: suf], alone or after any prefix [p] and a dot,
    the result is [head.suf...].  Segments of at most 18 digits and
    segments prefixed with [func] are absorbed, and every name ending in
    [pkg.], the pointer receiver [*Type] in parentheses, and
    [.Method.func1.1] reduces to [Method.func1.1]. *)
Theorem getFuncNameSlog_absorbs_trailing :
  forall (p head : string) (suf : list string),
    no_dot head = true -> Forall (fun s => no_dot s = true) suf ->
    absorbed head = false -> Forall (fun s => absorbed s = true) suf ->
    getFuncNameSlog (strings.Join (head :: suf) ".") = strings.Join (head :: suf) "."
    /\ getFuncNameSlog (p ++ "." ++ strings.Join (head :: suf) ".")
       = strings.Join (head :: suf) "."
    /\ (forall seg, strings.HasPrefix seg "func" = true -> absorbed seg = true)
    /\ (forall seg, numeric_only seg = true -> (String.length seg < 19)%nat ->
                    absorbed seg = true)
    /\ (forall q, getFuncNameSlog (q ++ "pkg.(*Type).Method.func1.1") = "Method.func1.1").
Proof.
  intros p head suf Hd Fd Ha Fa. repeat split.
  - now apply getFuncNameSlog_unprefixed.
  - now apply getFuncNameSlog_prefixed.
  - intros seg E. unfold absorbed. now rewrite E.
  - apply numeric_only_absorbed.
  - intros q.
    replace (q ++ "pkg.(*Type).Method.func1.1")
      with ((q ++ "pkg.(*Type)") ++ "." ++ strings.Join ("Method" :: ["func1"; "1"]) ".")
      by (rewrite sapp_assoc; reflexivity).
    rewrite getFuncNameSlog_prefixed; [reflexivity | reflexivity | | reflexivity |];
      repeat constructor.
Qed.

Lemma getFuncNameSlog_absorbs_trailing_witness :
  getFuncNameSlog "github.com/acme/store.(*Repo).Find.func1.1" = "Find.func1.1".
Proof.
  refine (proj1 (proj2 (getFuncNameSlog_absorbs_trailing
    "github.com/acme/store.(*Repo)" "Find" ["func1"; "1"] _ _ _ _)));
    repeat constructor.
Defined.

(** ** Rendering: the shape of [appendAttr] and what the appends add *)

Section RenderingFacts.

Context {RT : GoRuntime}.

Lemma appendAttrs_members (h : handlerTextColor) (g : list Attr) (buf gp : string)
    (gs : list string) :
  (fix members (g : list Attr) (buf : string) : Outcome string :=
     match g with
     | [] => Returns buf
     | mkAttr k gv :: rest =>
         buf <- appendAttr_rec maxLogValues h buf k gv gp gs ;;
         members rest buf
     end) g buf
  = appendAttrs h buf g gp gs.
Proof.
  revert buf; induction g as [|[k gv] rest IH]; intros buf; [reflexivity|].
  simpl appendAttrs. unfold appendAttr at 1. simpl Attr_Key. simpl Attr_Value.
  destruct (appendAttr_rec maxLogValues h buf k gv gp gs) as [buf'|msg]; simpl.
  - apply IH.
  - reflexivity.
Qed.

Lemma appendAttr_rec_eq (n : nat) (h : handlerTextColor) (buf key : string) (v : Value)
    (gp : string) (gs : list string) :
  appendAttr_rec n h buf key v gp gs =
  match Resolve_loop n v with
  | GroupValue g =>
      appendAttrs h buf g
        (if negb (String.eqb key "") then gp ++ key ++ "." else gp)
        (if negb (String.eqb key "") then (gs ++ [key])%list else gs)
  | v' => appendAttr_leaf h buf key v' gp
  end.
Proof.
  revert v; induction n as [|n IH]; intros v;
    destruct v as [s|i|u|f|b|d|t|g|a|[v'|msg]]; try reflexivity.
  - simpl. apply appendAttrs_members.
  - simpl. apply IH.
Qed.

(** [appendAttr] in the shape of the source: resolve the value, skip the
    zero attribute, then the switch on the kind. *)
Lemma appendAttr_eq (h : handlerTextColor) (buf : string) (attr : Attr) (gp : string)
    (gs : list string) :
  appendAttr h buf attr gp gs =
  let key := Attr_Key attr in
  let v := Resolve (Attr_Value attr) in
  if is_zero_Attr key v then Returns buf
  else
    match v with
    | AnyValue (any_logError e) =>
        buf' <- appendTintError h buf e key gp ;; Returns (buf' ++ " ")
    | GroupValue g =>
        appendAttrs h buf g
          (if negb (String.eqb key "") then gp ++ key ++ "." else gp)
          (if negb (String.eqb key "") then (gs ++ [key])%list else gs)
    | _ => Returns (appendValue h (appendKey h buf key gp) v true ++ " ")
    end.
Proof.
  unfold appendAttr, Resolve. rewrite appendAttr_rec_eq. cbv zeta.
  destruct (Resolve_loop maxLogValues (Attr_Value attr))
    as [s|i|u|f|b|d|t|g|a|lv] eqn:E; unfold appendAttr_leaf, is_zero_Attr;
    rewrite ?andb_false_r; reflexivity.
Qed.

(** [b'] is [b] with something appended. *)
Lemma appendString_extends (buf s : string) (quote color : bool) :
  exists x, appendString buf s quote color = buf ++ x.
Proof.
  unfold appendString.
  repeat match goal with |- context [if ?c then _ else _] => destruct c end;
    eexists; reflexivity.
Qed.

Lemma appendString_unquoted (buf s : string) (color : bool) :
  appendString buf s false color = buf ++ s.
Proof.
  unfold appendString. destruct color; reflexivity.
Qed.

Lemma appendKey_eq (h : handlerTextColor) (buf key gp : string) :
  appendKey h buf key gp = buf ++ Faint ++ (gp ++ key) ++ "=" ++ Reset.
Proof.
  unfold appendKey. rewrite appendString_unquoted. now rewrite !sapp_assoc.
Qed.


Lemma appendSource_extends (h : handlerTextColor) (buf : string) (src : Source) :
  exists x, appendSource h buf src = buf ++ x.
Proof.
  unfold appendSource. destruct (negb (Line src =? 0));
    rewrite ?sapp_assoc; eexists; reflexivity.
Qed.


End RenderingFacts.

(** ** The SQL trace block *)

Section SqlFacts.

Context {RT : GoRuntime}.

Lemma appendSql_eq (h : handlerTextColor) (ctx : Context) (lvl : Z) (buf : string) :
  appendSql h ctx lvl buf =
  if is_nil (ctx_Value ctx key_Sql) then buf
  else
    buf ++ String newline ""
    ++ match ctx_Value ctx key_Duration with
       | any_Duration c =>
           sql_duration_block (if c >? slowThreshold h then Red else Green) c
       | _ => ""
       end
    ++ sql_rows_block ctx ++ sql_text_block ctx lvl.
Proof.
  unfold appendSql, sql_rows_block, sql_text_block, sql_duration_block, newline.
  destruct (is_nil (ctx_Value ctx key_Sql)); [reflexivity|].
  destruct (ctx_Value ctx key_Duration); destruct (negb (is_nil (ctx_Value ctx key_Rows)));
    cbv zeta; rewrite ?sapp_assoc; simpl; rewrite ?sapp_assoc; reflexivity.
Qed.

Lemma appendSql_extends (h : handlerTextColor) (ctx : Context) (lvl : Z) (buf : string) :
  extends buf (appendSql h ctx lvl buf).
Proof.
  rewrite appendSql_eq. destruct (is_nil (ctx_Value ctx key_Sql)).
  - exists "". now rewrite sapp_nil_r.
  - eexists; reflexivity.
Qed.

End SqlFacts.

(** C4: when the SQL trace block is rendered (a [Sql] value is present)
    and the context holds the [time.Duration] [d] under [Duration], the
    duration is wrapped in [Green] for every [d <= slowThreshold] and in
    [Red] for every [d > slowThreshold]; [d = slowThreshold] is green. *)
Theorem appendSql_duration_color :
  forall (RT : GoRuntime) (h : handlerTextColor) (ctx : Context) (lvl : Z)
         (buf : string) (d : Z),
    is_nil (ctx_Value ctx key_Sql) = false ->
    ctx_Value ctx key_Duration = any_Duration d ->
    (d <= slowThreshold h ->
     appendSql h ctx lvl buf
     = buf ++ String newline "" ++ sql_duration_block Green d
       ++ sql_rows_block ctx ++ sql_text_block ctx lvl)
    /\ (slowThreshold h < d ->
        appendSql h ctx lvl buf
        = buf ++ String newline "" ++ sql_duration_block Red d
          ++ sql_rows_block ctx ++ sql_text_block ctx lvl)
    /\ (d = slowThreshold h ->
        appendSql h ctx lvl buf
        = buf ++ String newline "" ++ sql_duration_block Green d
          ++ sql_rows_block ctx ++ sql_text_block ctx lvl).
Proof.
  intros RT h ctx lvl buf d Hsql Hd.
  rewrite appendSql_eq, Hsql, Hd.
  repeat split; intros Hc;
    destruct (Z.gtb_spec d (slowThreshold h)); try lia; reflexivity.
Qed.

Lemma appendSql_duration_color_witness :
  appendSql (RT := Example.runtime) Example.dev
    [(key_Duration, any_Duration (2 * Second)); (key_Sql, any_string "SELECT 1")]
    LevelInfo ""
  = String newline "" ++ sql_duration_block (RT := Example.runtime) Green (2 * Second)
    ++ Magenta ++ "SELECT 1 " ++ Reset ++ String newline "".
Proof.
  refine (proj2 (proj2 (appendSql_duration_color Example.runtime Example.dev
    [(key_Duration, any_Duration (2 * Second)); (key_Sql, any_string "SELECT 1")]
    LevelInfo "" (2 * Second) _ _)) _); reflexivity.
Defined.

(** ** Derivation *)

(** C1: [WithGroup] with a name that is not empty and [WithAttrs] with a
    list that is not empty return a handler with the parent's sink, time
    format and level, but with [source], [addCxtAttr] and
    [slowThreshold] at their zero values, whatever the parent's are:
    [clone] does not copy them.  A derived handler therefore renders
    every positive duration in [Red]. *)
Theorem derived_handler_configuration :
  forall (RT : GoRuntime) (h : handlerTextColor) (name : string) (attrs : list Attr),
    (String.eqb name "" = false ->
     keeps_sink_and_format h (handlerTextColor_WithGroup h name)
     /\ configuration_reset (handlerTextColor_WithGroup h name))
    /\ (forall h2, attrs <> [] ->
                   handlerTextColor_WithAttrs h attrs = Returns h2 ->
                   keeps_sink_and_format h h2 /\ configuration_reset h2)
    /\ (forall ctx lvl buf d,
          String.eqb name "" = false ->
          is_nil (ctx_Value ctx key_Sql) = false ->
          ctx_Value ctx key_Duration = any_Duration d ->
          0 < d ->
          appendSql (handlerTextColor_WithGroup h name) ctx lvl buf
          = buf ++ String newline "" ++ sql_duration_block Red d
            ++ sql_rows_block ctx ++ sql_text_block ctx lvl).
Proof.
  intros RT h name attrs. split; [|split].
  - intros Hn. unfold handlerTextColor_WithGroup. rewrite Hn.
    repeat split.
  - intros h2 Hne. unfold handlerTextColor_WithAttrs.
    destruct attrs as [|a attrs]; [congruence|]. simpl Nat.eqb. cbv iota.
    destruct (appendAttrs h "" (a :: attrs) (groupPrefix h) (groups h)) as [b|m];
      simpl; intros E; [|discriminate].
    injection E as <-. repeat split.
  - intros ctx lvl buf d Hn Hsql Hd Hpos.
    rewrite appendSql_eq, Hsql, Hd.
    unfold handlerTextColor_WithGroup. rewrite Hn. simpl slowThreshold.
    destruct (Z.gtb_spec d 0); [reflexivity | lia].
Qed.

Lemma derived_handler_configuration_witness :
  (source Example.dev = true
   /\ addCxtAttr Example.dev = ["request_id"]
   /\ slowThreshold Example.dev = 2 * Second)
  /\ keeps_sink_and_format Example.dev (handlerTextColor_WithGroup Example.dev "db")
  /\ configuration_reset (handlerTextColor_WithGroup Example.dev "db").
Proof.
  split; [repeat split|].
  exact (proj1 (derived_handler_configuration Example.runtime Example.dev "db" [])
               eq_refl).
Defined.

(** ** Attributes *)

Section AttrFacts.

Context {RT : GoRuntime}.

Lemma Resolve_not_LogValuer (v : Value) :
  match v with LogValuerValue _ => False | _ => True end -> Resolve v = v.
Proof. destruct v; intros H; try reflexivity. destruct H. Qed.

(** A plain value is rendered as the key, the value and a space. *)
Lemma appendAttr_plain (h : handlerTextColor) (buf key : string) (v : Value) (gp : string)
    (gs : list string) :
  plain_value v = true -> is_zero_Attr key v = false ->
  appendAttr h buf (mkAttr key v) gp gs
  = Returns (appendValue h (appendKey h buf key gp) v true ++ " ").
Proof.
  intros Hp Hz. rewrite appendAttr_eq. simpl Attr_Key. simpl Attr_Value. cbv zeta.
  rewrite Resolve_not_LogValuer by (destruct v; simpl in Hp; try exact I; discriminate).
  rewrite Hz.
  destruct v as [s|i|u|f|b|d|t|g|a|lv]; simpl in Hp; try discriminate; try reflexivity.
  destruct a; simpl in Hp; try discriminate; reflexivity.
Qed.

Lemma appendAttr_group (h : handlerTextColor) (buf key : string) (g : list Attr)
    (gp : string) (gs : list string) :
  appendAttr h buf (mkAttr key (GroupValue g)) gp gs
  = appendAttrs h buf g
      (if negb (String.eqb key "") then gp ++ key ++ "." else gp)
      (if negb (String.eqb key "") then (gs ++ [key])%list else gs).
Proof.
  rewrite appendAttr_eq. simpl Attr_Key. simpl Attr_Value. cbv zeta.
  rewrite Resolve_not_LogValuer by exact I.
  unfold is_zero_Attr. now rewrite andb_false_r.
Qed.

End AttrFacts.

(** C2 (as stated, refuted): the attribute with key [k] and the zero
    value resolves to the zero value, yet it is not skipped: the key, the
    formatted value and a space are appended. *)
Lemma zero_value_with_key_is_rendered :
  exists attr : Attr,
    attr = mkAttr "k" (AnyValue any_nil)
    /\ Resolve (Attr_Value attr) = AnyValue any_nil
    /\ forall (RT : GoRuntime) (h : handlerTextColor) (buf gp : string) (gs : list string),
         appendAttr h buf attr gp gs
         = Returns (appendString (buf ++ Faint ++ (gp ++ "k") ++ "=" ++ Reset)
                      (fmt_plus_v any_nil) true true ++ " ")
         /\ appendAttr h buf attr gp gs <> Returns buf.
Proof.
  exists (mkAttr "k" (AnyValue any_nil)). split; [reflexivity|]. split; [reflexivity|].
  intros RT h buf gp gs.
  assert (E : appendAttr h buf (mkAttr "k" (AnyValue any_nil)) gp gs
              = Returns (appendString (buf ++ Faint ++ (gp ++ "k") ++ "=" ++ Reset)
                           (fmt_plus_v any_nil) true true ++ " ")).
  { rewrite appendAttr_plain, appendKey_eq by reflexivity. reflexivity. }
  split; [exact E|]. rewrite E.
  destruct (appendString_extends (buf ++ Faint ++ (gp ++ "k") ++ "=" ++ Reset)
              (fmt_plus_v any_nil) true true) as (x & ->).
  intros C.
  apply (f_equal (fun o => match o with
                           | Returns out => String.length out
                           | Panics _ => O
                           end)) in C.
  cbv beta iota in C. rewrite !slen_app in C. simpl String.length in C. lia.
Qed.

(** C2 (amended): the render pass appends nothing for an attribute that
    equals the zero attribute (an empty key and a value that resolves to
    the zero value), and nothing for an attribute whose value resolves to
    an empty group, whatever its key. *)
Theorem zero_attribute_skipped :
  forall (RT : GoRuntime) (h : handlerTextColor) (buf : string) (attr : Attr)
         (gp : string) (gs : list string),
    (Attr_Key attr = "" /\ Resolve (Attr_Value attr) = AnyValue any_nil)
    \/ Resolve (Attr_Value attr) = GroupValue [] ->
    appendAttr h buf attr gp gs = Returns buf.
Proof.
  intros RT h buf attr gp gs [[Hk Hv]|Hv]; rewrite appendAttr_eq; cbv zeta; rewrite Hv.
  - now rewrite Hk.
  - unfold is_zero_Attr. now rewrite andb_false_r.
Qed.

Lemma zero_attribute_skipped_witness :
  appendAttr (RT := Example.runtime) Example.dev "INFO " (mkAttr "" (AnyValue any_nil))
    "" []
  = Returns "INFO ".
Proof.
  exact (zero_attribute_skipped Example.runtime Example.dev "INFO "
           (mkAttr "" (AnyValue any_nil)) "" [] (or_introl (conj eq_refl eq_refl))).
Defined.

(** ** Panics *)

Section PanicFacts.

Context {RT : GoRuntime}.

Lemma extends_refl (b : string) : extends b b.
Proof. exists "". now rewrite sapp_nil_r. Qed.

Lemma extends_app (b x : string) : extends b (b ++ x).
Proof. now exists x. Qed.

Lemma extends_trans (a b c : string) : extends a b -> extends b c -> extends a c.
Proof. intros (x & ->) (y & ->). exists (x ++ y). apply sapp_assoc. Qed.









End PanicFacts.

(** ** [Handle] of the dev handler *)

Section HandleFacts.

Context {RT : GoRuntime}.

Lemma appendMessage_extends (h : handlerTextColor) (buf : string) (lvl : Z) (msg : string) :
  extends buf (appendMessage h buf lvl msg).
Proof.
  unfold appendMessage. destruct (String.eqb msg "");
    [apply extends_refl | apply extends_app].
Qed.

Lemma AddValueCtx_loop_extends (h : handlerTextColor) (ctx : Context) (keys : list string)
    (buf : string) :
  extends buf (AddValueCtx_loop h ctx keys buf).
Proof.
  revert buf; induction keys as [|k keys IH]; intros buf; [apply extends_refl|].
  simpl. eapply extends_trans; [|apply IH].
  destruct (negb (is_nil (ctx_Value ctx k))); [apply extends_app | apply extends_refl].
Qed.

Lemma set_last_nonempty (s : string) (c : ascii) :
  s <> "" -> exists line, set_last s c = line ++ String c "".
Proof.
  induction s as [|a t IH]; intros Hs; [congruence|].
  destruct t as [|b t].
  - now exists "".
  - destruct IH as (line & E); [discriminate|].
    exists (String a line). simpl set_last in *. now rewrite E.
Qed.

Lemma extends_nonempty (b b' : string) : b <> "" -> extends b b' -> b' <> "".
Proof.
  intros Hb (x & ->). destruct b; [congruence | discriminate].
Qed.

Lemma len_zero_false (s : string) : s <> "" -> (len s =? 0) = false.
Proof.
  intros Hs. destruct s; [congruence|].
  apply Z.eqb_neq. rewrite len_String. pose proof (len_nonneg s). lia.
Qed.






Lemma ctx_Value_other (ctx : Context) (k k' : string) (v : Any) :
  String.eqb k k' = false -> ctx_Value (WithValue ctx k v) k' = ctx_Value ctx k'.
Proof. intros E. simpl. now rewrite E. Qed.


Lemma appendSql_other (h : handlerTextColor) (ctx : Context) (v : Any) (lvl : Z)
    (buf : string) :
  appendSql h (WithValue ctx key_Source v) lvl buf = appendSql h ctx lvl buf.
Proof. reflexivity. Qed.


End HandleFacts.






(** ** The context middleware *)

(** C8: when the next handler derives [next'] for [WithAttrs] (for
    [WithGroup]), the middleware returns a new middleware over [next']
    whose [source] flag is unset and whose [addCxtAttr] list is empty,
    whatever they are in [m]; its [Handle] forwards the record with, at
    most, the [Sql] value of the context added: no [addCxtAttr] key and
    no source is attached. *)
Theorem derived_middleware_not_enriching :
  forall (RT : GoRuntime) (H : Type) (next_Handler : Handler H)
         (m : HandlerMiddleware H) (attrs : list Attr) (name : string) (next' : H),
    let m2 := {| mw_next := next'; mw_source := false; mw_addCxtAttr := [] |} in
    (WithAttrs (mw_next m) attrs = Returns next' ->
     HandlerMiddleware_WithAttrs m attrs = Returns m2)
    /\ (WithGroup (mw_next m) name = Returns next' ->
        HandlerMiddleware_WithGroup m name = Returns m2)
    /\ (forall ctx rec,
          HandlerMiddleware_enrich m2 ctx rec
          = if is_nil (ctx_Value ctx key_Sql) then rec
            else Record_Add rec key_Sql (ctx_Value ctx key_Sql))
    /\ (forall ctx rec,
          HandlerMiddleware_Handle m2 ctx rec
          = Handle next' ctx
              (if is_nil (ctx_Value ctx key_Sql) then rec
               else Record_Add rec key_Sql (ctx_Value ctx key_Sql))).
Proof.
  intros RT H next_Handler m attrs name next' m2.
  assert (E : forall ctx rec,
             HandlerMiddleware_enrich m2 ctx rec
             = if is_nil (ctx_Value ctx key_Sql) then rec
               else Record_Add rec key_Sql (ctx_Value ctx key_Sql)).
  { intros ctx rec. unfold HandlerMiddleware_enrich, m2. simpl.
    destruct (is_nil (ctx_Value ctx key_Sql)); reflexivity. }
  repeat split.
  - intros Hn. unfold HandlerMiddleware_WithAttrs. now rewrite Hn.
  - intros Hn. unfold HandlerMiddleware_WithGroup. now rewrite Hn.
  - exact E.
  - intros ctx rec. unfold HandlerMiddleware_Handle. now rewrite E.
Qed.

Lemma derived_middleware_not_enriching_witness :
  HandlerMiddleware_WithGroup
    (next_Handler := handlerTextColor_Handler (RT := Example.runtime))
    (NewHandlerMiddleware Example.dev Example.devOptions) "db"
  = Returns {| mw_next := handlerTextColor_WithGroup Example.dev "db";
               mw_source := false;
               mw_addCxtAttr := [] |}.
Proof.
  exact (proj1 (proj2 (derived_middleware_not_enriching Example.runtime handlerTextColor
    (handlerTextColor_Handler (RT := Example.runtime))
    (NewHandlerMiddleware Example.dev Example.devOptions)
    [] "db" (handlerTextColor_WithGroup Example.dev "db"))) eq_refl).
Defined.

(** ** The model at work *)

(** A record with level Info, the message [started], no attribute and the
    source disabled is rendered as the time, the level and the message. *)
Example Handle_plain_line :
  handlerTextColor_Handle (RT := Example.runtime) Example.quiet [] Example.stamped
  = Returns {| written := Some (Faint ++ "1700000000" ++ Reset ++ " "
                                ++ BrightGreen ++ "INFO" ++ Reset ++ " "
                                ++ Cyan ++ "started" ++ Reset ++ String newline "");
               err := None |}.
Proof. vm_compute. reflexivity. Qed.

(** A context with [Sql], a [Duration] of 250ms below the threshold of
    one second and [Rows = 3]: the line ends with the SQL block, the
    duration in green. *)
Example Handle_sql_block :
  handlerTextColor_Handle (RT := Example.runtime) Example.quiet Example.traceCtx
    Example.traced
  = Returns {| written := Some (BrightGreen ++ "INFO" ++ Reset ++ " " ++ String newline ""
                                ++ Green ++ "[0.2500] " ++ Reset
                                ++ Yellow ++ "rows:3 " ++ Reset
                                ++ Magenta ++ "SELECT 1 " ++ Reset ++ String newline "");
               err := None |}.
Proof. vm_compute. reflexivity. Qed.

(** A [MarshalText] that panics between two other attributes, a source
    carried by the context and a context attribute. *)
Example Handle_panicking_attribute :
  handlerTextColor_Handle (RT := Example.runtime) Example.dev
    [(key_Source, any_Source {| Function := "Find"; File := "store/repo.go"; Line := 7 |});
     ("request_id", any_string "r-1")]
    (Example.record
       [mkAttr "n" (Int64Value 3);
        mkAttr "user" (AnyValue (any_TextMarshaler false (Marshal_panic "boom")));
        mkAttr "g" (GroupValue [mkAttr "a" (StringValue "x y")])])
  = Returns {| written :=
                 Some (BrightGreen ++ "INFO" ++ Reset ++ " "
                       ++ Faint ++ "store/repo.go:7" ++ Reset ++ " "
                       ++ Blue ++ "Find" ++ Reset ++ " "
                       ++ Cyan ++ "started" ++ Reset ++ " "
                       ++ Faint ++ "n=" ++ Reset ++ "3 "
                       ++ Faint ++ "user=" ++ Reset ++ Example.quoted "!PANIC: boom" ++ " "
                       ++ Faint ++ "g.a=" ++ Reset ++ Example.quoted "x y" ++ " "
                       ++ Faint ++ "request_id=" ++ Reset ++ "r-1" ++ String newline "");
               err := None |}.
Proof. vm_compute. reflexivity. Qed.

(** A handler without a sink panics when it writes the line. *)
Example Handle_nil_Writer :
  panics (handlerTextColor_Handle (RT := Example.runtime)
            (NewDevHandler {| opt_AddCxtAttr := []; opt_W := nil_Writer;
                              opt_Source := false; opt_SlowThreshold := 0 |})
            [] Example.stamped) = true.
Proof. vm_compute. reflexivity. Qed.

(* ================================================================== *)
(** * Further properties *)

(** ** Function-name reduction on every input *)

Lemma Split_pieces_no_dot (s : string) :
  Forall (fun x => no_dot x = true) (strings.Split s ".").
Proof.
  induction s as [|c s IH]; simpl; [now repeat constructor|].
  destruct (Ascii.eqb c ".") eqn:E; [now constructor|].
  destruct (strings.Split s ".") as [|piece pieces].
  - constructor; [simpl; now rewrite E | constructor].
  - inversion IH as [|? ? Hp Hps]; subst. constructor; [|assumption].
    simpl. now rewrite E, Hp.
Qed.

Lemma Join_cons_char (c : ascii) (piece : string) (pieces : list string) (sep : string) :
  strings.Join (String c piece :: pieces) sep
  = String c (strings.Join (piece :: pieces) sep).
Proof. destruct pieces; reflexivity. Qed.

Lemma Join_Split (s : string) : strings.Join (strings.Split s ".") "." = s.
Proof.
  induction s as [|c s IH]; simpl; [reflexivity|].
  destruct (Ascii.eqb_spec c ".") as [->|Hc].
  - destruct (Split_nonempty s ".") as (x & l & E). rewrite E in *.
    rewrite Join_cons2, IH. reflexivity.
  - destruct (Split_nonempty s ".") as (x & l & E). rewrite E in *.
    now rewrite Join_cons_char, IH.
Qed.

(** From the end of a list of segments: all are absorbed, or there is a
    last segment that is not. *)
Lemma absorbed_suffix (segs : list string) :
  Forall (fun s => absorbed s = true) segs
  \/ exists pre head suf,
       segs = (pre ++ head :: suf)%list /\ absorbed head = false
       /\ Forall (fun s => absorbed s = true) suf.
Proof.
  induction segs as [|a rest IH]; [now left|].
  destruct IH as [All|(pre & head & suf & -> & Hh & Hs)].
  - destruct (absorbed a) eqn:Ea.
    + left. now constructor.
    + right. now exists [], a, rest.
  - right. now exists (a :: pre), head, suf.
Qed.

Lemma getFuncNameSlog_loop_all (rsegs : list string) (acc : string) :
  rsegs <> [] ->
  Forall (fun s => absorbed s = true) rsegs ->
  getFuncNameSlog_loop rsegs acc = "." ++ strings.Join (rev rsegs) "." ++ acc.
Proof.
  revert acc; induction rsegs as [|s rest IH]; intros acc Hne F; [congruence|].
  inversion F as [|? ? Hs Frest]; subst.
  simpl getFuncNameSlog_loop. unfold absorbed in Hs. rewrite Hs.
  destruct rest as [|s' rest'].
  - reflexivity.
  - rewrite IH by (assumption || discriminate).
    change (rev (s :: s' :: rest')) with (rev (s' :: rest') ++ [s])%list.
    destruct (rev (s' :: rest')) as [|e l] eqn:E.
    + apply (f_equal (@List.length string)) in E. rewrite length_rev in E. discriminate.
    + rewrite Join_snoc. now rewrite !sapp_assoc.
Qed.

Lemma Forall_rev_absorbed (l : list string) :
  Forall (fun s => absorbed s = true) l -> Forall (fun s => absorbed s = true) (rev l).
Proof.
  intros F. apply Forall_forall. intros x Hx. apply In_rev in Hx.
  now apply (proj1 (Forall_forall _ _) F).
Qed.

Lemma getFuncNameSlog_all_absorbed (p : string) :
  Forall (fun s => absorbed s = true) (strings.Split p ".") ->
  getFuncNameSlog p = "." ++ p.
Proof.
  intros F. unfold getFuncNameSlog.
  destruct (Split_nonempty p ".") as (x & l & E).
  rewrite E in *. simpl List.length. simpl Nat.eqb. cbv iota.
  rewrite getFuncNameSlog_loop_all.
  - rewrite rev_involutive, sapp_nil_r, <- E, Join_Split. reflexivity.
  - intros C. apply (f_equal (@List.length string)) in C.
    rewrite length_rev in C. discriminate.
  - now apply Forall_rev_absorbed.
Qed.

Lemma Forall_app_l {A : Type} (P : A -> Prop) (l1 l2 : list A) :
  Forall P (l1 ++ l2)%list -> Forall P l2.
Proof. intros F. now apply Forall_app in F. Qed.

Lemma Join_app_cons (pre : list string) (head : string) (suf : list string) :
  exists q, strings.Join (pre ++ head :: suf)%list "." = q ++ strings.Join (head :: suf) ".".
Proof.
  induction pre as [|a pre IH]; [now exists ""|].
  destruct IH as (q & E).
  destruct (pre ++ head :: suf)%list as [|y ys] eqn:Ey.
  - destruct pre; discriminate.
  - change ((a :: pre) ++ head :: suf)%list with (a :: (pre ++ head :: suf))%list.
    rewrite Ey, Join_cons2, E. exists (a ++ "." ++ q). now rewrite !sapp_assoc.
Qed.

(** X1: on every name, [getFuncNameSlog] returns either the name after a
    dot, when [strconv.Atoi] or the [func] prefix absorbs every one of
    its segments, or a suffix of the name that starts at its last segment
    that is not absorbed. *)
Theorem getFuncNameSlog_shape :
  forall p : string,
    (Forall (fun s => absorbed s = true) (strings.Split p ".")
     /\ getFuncNameSlog p = "." ++ p)
    \/ (exists pre head suf q,
          strings.Split p "." = (pre ++ head :: suf)%list
          /\ absorbed head = false
          /\ Forall (fun s => absorbed s = true) suf
          /\ getFuncNameSlog p = strings.Join (head :: suf) "."
          /\ p = q ++ getFuncNameSlog p).
Proof.
  intros p. destruct (absorbed_suffix (strings.Split p ".")) as [All|(pre & head & suf & E & Hh & Hs)].
  - left. split; [assumption | now apply getFuncNameSlog_all_absorbed].
  - right.
    assert (R : getFuncNameSlog p = strings.Join (head :: suf) ".").
    { unfold getFuncNameSlog. rewrite E.
      replace (Nat.eqb (List.length (pre ++ head :: suf)%list) 0) with false
        by (rewrite length_app; simpl; symmetry; apply Nat.eqb_neq; lia).
      now apply getFuncNameSlog_of_pieces. }
    destruct (Join_app_cons pre head suf) as (q & Eq).
    exists pre, head, suf, q. repeat split; try assumption.
    rewrite R, <- Eq, <- E. symmetry. apply Join_Split.
Qed.

(** X2: [getFuncNameSlog] is idempotent: reducing a name that is already
    reduced (as the dev handler does with the source the middleware
    attached) changes nothing. *)
Theorem getFuncNameSlog_idempotent :
  forall p : string, getFuncNameSlog (getFuncNameSlog p) = getFuncNameSlog p.
Proof.
  intros p. pose proof (Split_pieces_no_dot p) as Hnd.
  destruct (absorbed_suffix (strings.Split p ".")) as [All|(pre & head & suf & E & Hh & Hs)].
  - rewrite (getFuncNameSlog_all_absorbed p All).
    change ("." ++ p) with (String "." p).
    unfold getFuncNameSlog at 1. simpl strings.Split.
    destruct (Split_nonempty p ".") as (x & l & E). rewrite E in *.
    simpl List.length. simpl Nat.eqb. cbv iota.
    change (rev ("" :: x :: l)) with (rev (x :: l) ++ "" :: [])%list.
    rewrite getFuncNameSlog_loop_stops;
      [| reflexivity | now apply Forall_rev_absorbed].
    rewrite rev_involutive, sapp_nil_r, Join_cons2, <- E, Join_Split. reflexivity.
  - assert (R : getFuncNameSlog p = strings.Join (head :: suf) ".").
    { unfold getFuncNameSlog. rewrite E.
      replace (Nat.eqb (List.length (pre ++ head :: suf)%list) 0) with false
        by (rewrite length_app; simpl; symmetry; apply Nat.eqb_neq; lia).
      now apply getFuncNameSlog_of_pieces. }
    rewrite R. rewrite E in Hnd. apply Forall_app_l in Hnd.
    inversion Hnd; subst. now apply getFuncNameSlog_unprefixed.
Qed.

(** ** [strconv.Atoi] with its error value *)

Lemma digits_ge (s : string) (n v : Z) :
  0 <= n -> strconv.digits s n = Some v -> n <= v.
Proof.
  revert n; induction s as [|c s IH]; intros n Hn; simpl.
  - intros E. injection E as <-. lia.
  - pose proof (Z.mod_pos_bound (byte_of c - 48) 256 ltac:(lia)) as Hm.
    destruct (Z.ltb_spec 9 ((byte_of c - 48) mod 256)); [discriminate|].
    intros E. apply IH in E; lia.
Qed.

Lemma digit_byte (c : ascii) :
  ((48 <=? byte_of c) && (byte_of c <=? 57)) = negb (9 <? (byte_of c - 48) mod 256)
  /\ ((48 <=? byte_of c) && (byte_of c <=? 57) = true ->
      (byte_of c - 48) mod 256 = byte_of c - 48).
Proof.
  pose proof (byte_of_range c) as Hr.
  destruct (Z.leb_spec 48 (byte_of c)); destruct (Z.leb_spec (byte_of c) 57); simpl.
  - rewrite Z.mod_small by lia. split; [|reflexivity].
    destruct (Z.ltb_spec 9 (byte_of c - 48)); [lia | reflexivity].
  - split; [|discriminate]. rewrite Z.mod_small by lia.
    destruct (Z.ltb_spec 9 (byte_of c - 48)); [reflexivity | lia].
  - split; [|discriminate].
    replace ((byte_of c - 48) mod 256) with (byte_of c + 208).
    + destruct (Z.ltb_spec 9 (byte_of c + 208)); [reflexivity | lia].
    + apply Z.mod_unique with (q := -1); lia.
  - lia.
Qed.

Lemma ParseUint_loop_spec (s : string) :
  forall n, 0 <= n <= strconvE.maxUint64 ->
  match strconv.digits s n with
  | Some v =>
      strconvE.ParseUint_loop s n
      = if v <=? strconvE.maxUint64 then (v, None)
        else (strconvE.maxUint64, Some strconvE.ErrRange)
  | None =>
      strconvE.ParseUint_loop s n = (0, Some strconvE.ErrSyntax)
      \/ strconvE.ParseUint_loop s n = (strconvE.maxUint64, Some strconvE.ErrRange)
  end.
Proof.
  induction s as [|c s IH]; intros n Hn.
  - simpl. destruct (Z.leb_spec n strconvE.maxUint64); [reflexivity | lia].
  - simpl strconv.digits. simpl strconvE.ParseUint_loop.
    destruct (digit_byte c) as [Ed Em]. rewrite Ed.
    destruct (Z.ltb_spec 9 ((byte_of c - 48) mod 256)) as [Hnd|Hd]; simpl negb; cbv iota.
    + now left.
    + rewrite Em by (rewrite Ed; destruct (Z.ltb_spec 9 ((byte_of c - 48) mod 256)); [lia | reflexivity]).
      rewrite Em in Hd by (rewrite Ed; destruct (Z.ltb_spec 9 ((byte_of c - 48) mod 256)); [lia | reflexivity]).
      pose proof (Z.mod_pos_bound (byte_of c - 48) 256 ltac:(lia)) as Hm.
      rewrite Em in Hm by (rewrite Ed; destruct (Z.ltb_spec 9 ((byte_of c - 48) mod 256)); [lia | reflexivity]).
      set (d := byte_of c - 48) in *.
      unfold strconvE.maxUint64 in *.
      change (2 ^ 64) with 18446744073709551616 in *.
      change (Z.pow_pos 2 64) with 18446744073709551616 in *.
      change ((18446744073709551616 - 1) / 10 + 1) with 1844674407370955162.
      destruct (Z.leb_spec 1844674407370955162 n) as [Hc|Hc].
      * destruct (strconv.digits s (n * 10 + d)) as [v|] eqn:Ev; [|now right].
        apply digits_ge in Ev; [|lia].
        destruct (Z.leb_spec v (18446744073709551616 - 1)); [lia | reflexivity].
      * rewrite (Z.mod_small (n * 10)) by lia.
        destruct (Z.lt_ge_cases (n * 10 + d) 18446744073709551616) as [Hs|Hb].
        -- rewrite (Z.mod_small (n * 10 + d)) by lia.
           destruct (Z.ltb_spec (n * 10 + d) (n * 10)); [lia|].
           destruct (Z.ltb_spec (18446744073709551616 - 1) (n * 10 + d)); [lia|].
           simpl orb. cbv iota. apply IH. lia.
        -- replace ((n * 10 + d) mod 18446744073709551616)
             with (n * 10 + d - 18446744073709551616)
             by (apply Z.mod_unique with (q := 1); lia).
           destruct (Z.ltb_spec (n * 10 + d - 18446744073709551616) (n * 10)); [|lia].
           simpl orb. cbv iota.
           destruct (strconv.digits s (n * 10 + d)) as [v|] eqn:Ev; [|now right].
           apply digits_ge in Ev; [|lia].
           destruct (Z.leb_spec v (18446744073709551616 - 1)); [lia | reflexivity].
Qed.

(** The two models of [strconv.Atoi] agree. *)
Lemma Atoi_agrees (s : string) :
  strconv.Atoi s
  = match strconvE.Atoi s with
    | (n, None) => Some n
    | (_, Some _) => None
    end.
Proof.
  unfold strconv.Atoi, strconvE.Atoi.
  destruct ((0 <? len s) && (len s <? 19)).
  - destruct (len (if strconv.is_sign (at_ s 0) then drop 1 s else s) <? 1); [reflexivity|].
    destruct (strconv.digits _ 0); reflexivity.
  - unfold strconv.ParseInt10, strconvE.ParseInt.
    destruct (len s =? 0); [reflexivity|].
    set (s' := if strconv.is_sign (at_ s 0) then drop 1 s else s).
    unfold strconvE.ParseUint.
    destruct (len s' =? 0) eqn:El; [reflexivity|].
    pose proof (ParseUint_loop_spec s' 0 ltac:(unfold strconvE.maxUint64; lia)) as Hsp.
    destruct (strconv.digits s' 0) as [un|] eqn:Ed.
    + rewrite Hsp. unfold strconvE.maxUint64.
      change (2 ^ 64 - 1) with 18446744073709551615.
      change (2 ^ 63) with 9223372036854775808.
      destruct (Z.leb_spec un 18446744073709551615).
      * destruct (negb (at_ s 0 =? 45) && (9223372036854775808 <=? un)); [reflexivity|].
        destruct ((at_ s 0 =? 45) && (9223372036854775808 <? un)); reflexivity.
      * destruct (at_ s 0 =? 45); simpl.
        -- destruct (Z.ltb_spec 9223372036854775808 un); [|lia]. reflexivity.
        -- destruct (Z.leb_spec 9223372036854775808 un); [|lia]. reflexivity.
    + destruct Hsp as [-> | ->]; [reflexivity|].
      unfold strconvE.maxUint64. destruct (at_ s 0 =? 45); reflexivity.
Qed.

Lemma Atoi_error_value (s : string) (v : Z) (e : strconvE.NumErr) :
  strconvE.Atoi s = (v, Some e) ->
  (e = strconvE.ErrSyntax /\ v = 0)
  \/ (e = strconvE.ErrRange /\ (v = 2 ^ 63 - 1 \/ v = - 2 ^ 63)).
Proof.
  unfold strconvE.Atoi.
  destruct ((0 <? len s) && (len s <? 19)).
  - destruct (len (if strconv.is_sign (at_ s 0) then drop 1 s else s) <? 1).
    + intros E; injection E as <- <-. now left.
    + destruct (strconv.digits _ 0); intros E; [discriminate|].
      injection E as <- <-. now left.
  - unfold strconvE.ParseInt.
    destruct (len s =? 0); [intros E; injection E as <- <-; now left|].
    destruct (strconvE.ParseUint _) as [un [[|]|]].
    + intros E; injection E as <- <-; now left.
    + destruct (negb (at_ s 0 =? 45) && (2 ^ 63 <=? un));
        [intros E; injection E as <- <-; right; split; auto|].
      destruct ((at_ s 0 =? 45) && (2 ^ 63 <? un)); intros E; [|discriminate].
      injection E as <- <-. right; split; auto.
    + destruct (negb (at_ s 0 =? 45) && (2 ^ 63 <=? un));
        [intros E; injection E as <- <-; right; split; auto|].
      destruct ((at_ s 0 =? 45) && (2 ^ 63 <? un)); intros E; [|discriminate].
      injection E as <- <-. right; split; auto.
Qed.

(** ** The gorm adapter: [getFileLine] *)

Lemma eqb_byte_of (c sep : ascii) : Ascii.eqb c sep = (byte_of c =? byte_of sep).
Proof.
  destruct (Ascii.eqb_spec c sep) as [->|Hne]; [now rewrite Z.eqb_refl|].
  symmetry. apply Z.eqb_neq. intros E. apply Hne.
  unfold byte_of in E. apply N2Z.inj in E.
  rewrite <- (ascii_N_embedding c), <- (ascii_N_embedding sep). now rewrite E.
Qed.

Lemma Split_no_sep (s : string) (sep : ascii) :
  no_byte (byte_of sep) s = true -> strings.Split s sep = [s].
Proof.
  induction s as [|c s IH]; simpl; [reflexivity|].
  intros E. apply andb_prop in E as [Ec Es].
  apply negb_true_iff in Ec. rewrite eqb_byte_of, Ec, (IH Es). reflexivity.
Qed.

Lemma Split_length_app (a b : string) (sep : ascii) :
  List.length (strings.Split (a ++ String sep b) sep)
  = (List.length (strings.Split a sep) + List.length (strings.Split b sep))%nat.
Proof. now rewrite Split_app_sep, length_app. Qed.

Lemma Split_length_pos (s : string) (sep : ascii) :
  (1 <= List.length (strings.Split s sep))%nat.
Proof. destruct (Split_nonempty s sep) as (x & l & ->). simpl. lia. Qed.

Lemma getFileLine_one_colon (file d : string) :
  no_byte 58 file = true -> no_byte 58 d = true ->
  getFileLine (file ++ ":" ++ d)
  = (file, fst (strconvE.Atoi d), snd (strconvE.Atoi d)).
Proof.
  intros Hf Hd. unfold getFileLine.
  change (":" ++ d) with (String ":" d).
  rewrite Split_app_sep, (Split_no_sep file ":" Hf), (Split_no_sep d ":" Hd).
  simpl. now destruct (strconvE.Atoi d).
Qed.

(** X3: [getFileLine] takes a text apart at its colon: for a file name
    without colon followed by a colon and one to eighteen decimal digits
    it returns the name and the number and logs nothing.  A text without
    colon, and every text with two colons or more (a path with a drive
    letter), gives the empty name and line 0, also without logging. *)
Theorem getFileLine_splits_at_colon :
  forall file d a b c : string,
    (no_byte 58 file = true -> all_digits d = true -> d <> "" ->
     (String.length d < 19)%nat ->
     exists v, strconv.digits d 0 = Some v
               /\ 0 <= v
               /\ getFileLine (file ++ ":" ++ d) = (file, v, None))
    /\ (no_byte 58 file = true -> getFileLine file = ("", 0, None))
    /\ getFileLine (a ++ ":" ++ b ++ ":" ++ c) = ("", 0, None).
Proof.
  intros file d a b c. split; [|split].
  - intros Hf Hd Hne Hl.
    destruct (digits_all_digits d 0 Hd) as (v & Ev).
    exists v. split; [assumption|]. split; [now apply (digits_ge d 0 v)|].
    assert (Hc : no_byte 58 d = true).
    { clear - Hd. induction d as [|x d IH]; [reflexivity|].
      simpl in *. apply andb_prop in Hd as [Hx Hd]. rewrite (IH Hd), andb_true_r.
      unfold is_digit in Hx. apply andb_prop in Hx as [H1 H2].
      apply Z.leb_le in H1, H2. apply negb_true_iff, Z.eqb_neq. lia. }
    rewrite getFileLine_one_colon by assumption.
    destruct d as [|x d]; [congruence|].
    unfold strconvE.Atoi.
    replace ((0 <? len (String x d)) && (len (String x d) <? 19)) with true.
    2:{ symmetry. apply andb_true_iff. unfold len. split; apply Z.ltb_lt.
        - simpl String.length. lia.
        - lia. }
    assert (Hs : strconv.is_sign (at_ (String x d) 0) = false).
    { simpl at_. simpl in Hd. apply andb_prop in Hd as [Hx _].
      unfold is_digit in Hx. apply andb_prop in Hx as [H1 H2].
      apply Z.leb_le in H1, H2. unfold strconv.is_sign.
      apply orb_false_iff. split; apply Z.eqb_neq; lia. }
    rewrite Hs.
    replace (len (String x d) <? 1) with false
      by (symmetry; apply Z.ltb_ge; rewrite len_String; pose proof (len_nonneg d); lia).
    rewrite Ev.
    replace (at_ (String x d) 0 =? 45) with false; [reflexivity|].
    symmetry. unfold strconv.is_sign in Hs. now apply orb_false_iff in Hs.
  - intros Hf. unfold getFileLine. now rewrite (Split_no_sep file ":" Hf).
  - unfold getFileLine.
    change (":" ++ b ++ ":" ++ c) with (String ":" (b ++ String ":" c)).
    replace (Nat.eqb (List.length (strings.Split (a ++ String ":" (b ++ String ":" c)) ":")) 2)
      with false; [reflexivity|].
    symmetry. apply Nat.eqb_neq. rewrite !Split_length_app.
    pose proof (Split_length_pos a ":"). pose proof (Split_length_pos b ":").
    pose proof (Split_length_pos c ":"). lia.
Qed.

Lemma getFileLine_splits_at_colon_witness :
  getFileLine "repo.go" = ("", 0, None)
  /\ getFileLine ("repo.go" ++ ":" ++ "42") = ("repo.go", 42, None).
Proof.
  split.
  - exact (proj1 (proj2 (getFileLine_splits_at_colon "repo.go" "42" "" "" "")) eq_refl).
  - destruct (proj1 (getFileLine_splits_at_colon "repo.go" "42" "" "" "")
                eq_refl eq_refl ltac:(discriminate) ltac:(simpl; lia))
      as (v & Ev & _ & E).
    injection Ev as <-. exact E.
Defined.

(** X4: when the text after the single colon is not a number that
    [strconv.Atoi] accepts, [getFileLine] still returns the file name,
    logs the error, and returns as line what [Atoi] returns beside its
    error: 0 for a syntax error, the largest or the smallest [int] for
    a number out of range. *)
Theorem getFileLine_bad_number :
  forall (file d : string) (v : Z) (e : strconvE.NumErr),
    no_byte 58 file = true -> no_byte 58 d = true ->
    strconvE.Atoi d = (v, Some e) ->
    getFileLine (file ++ ":" ++ d) = (file, v, Some e)
    /\ ((e = strconvE.ErrSyntax /\ v = 0)
        \/ (e = strconvE.ErrRange /\ (v = 2 ^ 63 - 1 \/ v = - 2 ^ 63))).
Proof.
  intros file d v e Hf Hd E. split.
  - rewrite getFileLine_one_colon by assumption. now rewrite E.
  - now apply (Atoi_error_value d).
Qed.

Lemma getFileLine_bad_number_witness :
  getFileLine ("repo.go" ++ ":" ++ "99999999999999999999")
  = ("repo.go", 2 ^ 63 - 1, Some strconvE.ErrRange).
Proof.
  exact (proj1 (getFileLine_bad_number "repo.go" "99999999999999999999"
                  (2 ^ 63 - 1) strconvE.ErrRange eq_refl eq_refl eq_refl)).
Defined.

(** ** The gorm adapter: [getGormFuncName] and [Trace] *)

Lemma drop_S_at (path : string) (i : nat) :
  (i < String.length path)%nat ->
  exists c, drop i path = String c (drop (S i) path) /\ at_ path i = byte_of c.
Proof.
  revert i; induction path as [|x path IH]; intros i Hi; simpl in Hi; [lia|].
  destruct i as [|i].
  - exists x. split; reflexivity.
  - destruct (IH i ltac:(lia)) as (c & E & A). exists c. split; assumption.
Qed.

Lemma drop_all (path : string) : drop (String.length path) path = "".
Proof. induction path; simpl; auto. Qed.

(** [path.Ext] returns nothing, or a dot followed by bytes that are
    neither dots nor slashes. *)
Lemma path_Ext_loop_shape (path : string) (k : nat) :
  (k <= String.length path)%nat ->
  no_byte 46 (drop k path) = true -> no_byte 47 (drop k path) = true ->
  path_Ext_loop path k = ""
  \/ exists rest, path_Ext_loop path k = String "." rest
                  /\ no_byte 46 rest = true /\ no_byte 47 rest = true.
Proof.
  induction k as [|i IH]; intros Hk Hd Hs; [now left|].
  simpl path_Ext_loop.
  destruct (drop_S_at path i ltac:(lia)) as (c & E & A).
  destruct (Z.eqb_spec (at_ path i) 47) as [H47|H47]; [now left|].
  destruct (Z.eqb_spec (at_ path i) 46) as [H46|H46].
  - right. exists (drop (S i) path). rewrite E. repeat split; try assumption.
    f_equal. rewrite <- (ascii_N_embedding c).
    rewrite A in H46. unfold byte_of in H46.
    replace (N_of_ascii c) with 46%N by lia. reflexivity.
  - apply Z.eqb_neq in H46, H47.
    apply IH; [lia| |]; rewrite E; cbn [no_byte]; rewrite <- A.
    + now rewrite Hd, H46.
    + now rewrite Hs, H47.
Qed.

Lemma short_name_no_dot (f : string) :
  let r := strings_Replace1 (path_Ext f) "." "" in
  no_byte 46 r = true /\ no_byte 47 r = true.
Proof.
  cbv zeta. unfold path_Ext.
  destruct (path_Ext_loop_shape f (String.length f) (Nat.le_refl _))
    as [->|(rest & -> & H1 & H2)]; try (rewrite drop_all; reflexivity).
  - split; reflexivity.
  - simpl. split; assumption.
Qed.

Lemma no_byte_no_dot (s : string) : no_byte 46 s = true -> no_dot s = true.
Proof.
  induction s as [|c s IH]; simpl; [reflexivity|].
  intros E. apply andb_prop in E as [Ec Es]. rewrite (IH Es), andb_true_r.
  rewrite eqb_byte_of. exact Ec.
Qed.

Lemma getGormFuncName_no_dot (n : nat) (frames : list Source) :
  no_byte 46 (getGormFuncName n frames) = true
  /\ no_byte 47 (getGormFuncName n frames) = true.
Proof.
  revert frames; induction n as [|n IH]; intros frames; [split; reflexivity|].
  simpl. destruct (attributable (hd zero_Frame frames)).
  - apply short_name_no_dot.
  - apply IH.
Qed.

Lemma getFuncNameSlog_one_segment (s : string) :
  no_dot s = true -> getFuncNameSlog s = if absorbed s then "." ++ s else s.
Proof.
  intros Hs. unfold getFuncNameSlog. rewrite (Split_no_dot s Hs). simpl.
  unfold absorbed. destruct (strings.HasPrefix s "func" || _).
  - now rewrite sapp_nil_r.
  - apply sapp_nil_r.
Qed.

(** X5: [getGormFuncName] attributes the call to the first frame, among
    the [length] it looks at, that is outside [gorm.io/gorm] (or in a
    [_test.go] file) and not in a [.gen.go] file; its result is what
    follows the last dot of that frame's function and holds neither a dot
    nor a slash.  It is empty when it finds no such frame.  The dev
    handler, which reduces the name again, shows it unchanged unless it
    is a number or starts with [func], in which case it puts a dot in
    front. *)
Theorem getGormFuncName_first_attributable :
  forall (n : nat) (skipped : list Source) (f : Source) (rest : list Source),
    Forall (fun x => attributable x = false) skipped ->
    ((List.length skipped < n)%nat -> attributable f = true ->
     getGormFuncName n (skipped ++ f :: rest)
     = strings_Replace1 (path_Ext (Function f)) "." "")
    /\ ((n <= List.length skipped)%nat ->
        getGormFuncName n (skipped ++ rest) = "")
    /\ (forall frames,
          no_byte 46 (getGormFuncName n frames) = true
          /\ no_byte 47 (getGormFuncName n frames) = true
          /\ getFuncNameSlog (getGormFuncName n frames)
             = if absorbed (getGormFuncName n frames)
               then "." ++ getGormFuncName n frames
               else getGormFuncName n frames).
Proof.
  intros n skipped f rest F. split; [|split].
  - revert n; induction F as [|x skipped Hx F IH]; intros n Hn Hf.
    + destruct n as [|n]; [simpl in Hn; lia|]. simpl. now rewrite Hf.
    + destruct n as [|n]; [simpl in Hn; lia|]. simpl. rewrite Hx.
      apply IH; [simpl in Hn; lia | assumption].
  - revert n; induction F as [|x skipped Hx F IH]; intros n Hn.
    + destruct n; [reflexivity | simpl in Hn; lia].
    + destruct n as [|n]; [reflexivity|]. simpl. rewrite Hx.
      apply IH. simpl in Hn. lia.
  - intros frames. destruct (getGormFuncName_no_dot n frames) as [H1 H2].
    repeat split; try assumption.
    apply getFuncNameSlog_one_segment. now apply no_byte_no_dot.
Qed.

Lemma getGormFuncName_first_attributable_witness :
  getGormFuncName 3 ExampleGorm.frames = "Find".
Proof.
  refine (proj1 (getGormFuncName_first_attributable 3
            (firstn 2 ExampleGorm.frames)
            {| Function := "github.com/acme/app/store.(*Repo).Find";
               File := "/src/app/store/repo.go"; Line := 42 |} [] _) _ _).
  - repeat constructor.
  - simpl. lia.
  - reflexivity.
Defined.

Section TraceFacts.

Context {RT : GoRuntime} {GR : GormRuntime}.

Lemma Trace_last (ctx : Context) (t : TraceCall) :
  exists before,
    Trace ctx t
    = (before
       ++ [ {| log_ctx := Trace_ctx ctx t;
               log_level := match trace_err t with
                            | Some _ => LevelError
                            | None => LevelInfo
                            end;
               log_msg := match trace_err t with
                          | Some msg => msg
                          | None => ""
                          end |} ])%list.
Proof.
  unfold Trace. destruct (filepath_Split (trace_pathLine t)) as [dir file].
  eexists. f_equal. destruct (trace_err t); reflexivity.
Qed.

End TraceFacts.

(** X6: [Trace] ends with one call of the logger, at level Error with
    the error's message when [err] is not nil and at level Info with an
    empty message otherwise.  Its context carries the SQL text, the row
    count, the elapsed time and the source under the four keys and keeps
    every other value of the caller's context, so the dev handler appends
    the complete SQL block to such a line: the duration (red above the
    handler's threshold, green otherwise), the rows and the statement,
    also when the statement is empty or the row count is 0. *)
Theorem Trace_context_renders_sql_block :
  forall (RT : GoRuntime) (GR : GormRuntime) (ctx : Context) (t : TraceCall)
         (h : handlerTextColor) (buf : string),
  exists before call,
    Trace ctx t = (before ++ [call])%list
    /\ log_level call = (match trace_err t with Some _ => LevelError | None => LevelInfo end)
    /\ log_msg call = (match trace_err t with Some msg => msg | None => "" end)
    /\ ctx_Value (log_ctx call) key_Source = any_Source (Trace_source t)
    /\ (forall k,
          String.eqb key_Source k = false -> String.eqb key_Duration k = false ->
          String.eqb key_Rows k = false -> String.eqb key_Sql k = false ->
          ctx_Value (log_ctx call) k = ctx_Value ctx k)
    /\ appendSql h (log_ctx call) (log_level call) buf
       = buf ++ String newline ""
         ++ sql_duration_block
              (if trace_elapsed t >? slowThreshold h then Red else Green)
              (trace_elapsed t)
         ++ (Yellow ++ ("rows:" ++ fmt_v (any_int64 (trace_rows t)) ++ " ") ++ Reset)
         ++ (match trace_err t with Some _ => Red | None => Magenta end)
         ++ (fmt_v (any_string (trace_sql t)) ++ " ") ++ Reset ++ String newline "".
Proof.
  intros RT GR ctx t h buf.
  destruct (Trace_last ctx t) as (before & E).
  eexists before, _. split; [exact E|]. cbn [log_level log_msg log_ctx].
  repeat split.
  - intros k H1 H2 H3 H4. unfold Trace_ctx.
    now rewrite !ctx_Value_other by assumption.
  - rewrite appendSql_eq. unfold Trace_ctx, sql_rows_block, sql_text_block.
    cbn [ctx_Value WithValue String.eqb key_Sql key_Rows key_Duration key_Source
         Ascii.eqb Bool.eqb is_nil negb].
    destruct (trace_err t); reflexivity.
Qed.

(** ** Rendering only appends *)

Section AppendOnly.

Context {RT : GoRuntime}.

Lemma appendString_app (buf s : string) (quote color : bool) :
  appendString buf s quote color = buf ++ appendString "" s quote color.
Proof.
  unfold appendString.
  repeat match goal with |- context [if ?c then _ else _] => destruct c end;
    reflexivity.
Qed.

Lemma appendSource_app (h h' : handlerTextColor) (buf : string) (src : Source) :
  appendSource h buf src = buf ++ appendSource h' "" src.
Proof.
  unfold appendSource. destruct (negb (Line src =? 0)); simpl;
    now rewrite !sapp_assoc.
Qed.

Lemma appendValue_app (h h' : handlerTextColor) (buf : string) (v : Value) (quote : bool) :
  appendValue h buf v quote = buf ++ appendValue h' "" v quote.
Proof.
  destruct v as [s|i|u|f|b|d|t|g|a|lv]; simpl;
    try apply appendString_app; try reflexivity; try (now rewrite sapp_nil_r).
  destruct a as [| | | | |[src|]| | |np [data|e|msg]|]; simpl;
    try apply appendString_app; try reflexivity; try (now rewrite sapp_nil_r).
  - apply appendSource_app.
  - destruct np; apply appendString_app.
Qed.

Lemma appendAttr_leaf_app (h h' : handlerTextColor) (buf key : string) (v : Value)
    (gp : string) :
  appendAttr_leaf h buf key v gp
  = Outcome_map (String.append buf) (appendAttr_leaf h' "" key v gp).
Proof.
  unfold appendAttr_leaf.
  destruct (is_zero_Attr key v); [simpl; now rewrite sapp_nil_r|].
  assert (Hplain :
    Returns (appendValue h (appendKey h buf key gp) v true ++ " ")
    = Outcome_map (String.append buf)
        (Returns (appendValue h' (appendKey h' "" key gp) v true ++ " "))).
  { cbn [Outcome_map]. f_equal.
    rewrite (appendValue_app h h' (appendKey h buf key gp)).
    rewrite (appendValue_app h' h' (appendKey h' "" key gp)).
    rewrite !appendKey_eq, !sapp_assoc. reflexivity. }
  destruct v as [s|i|u|f|b|d|t|g|a|lv]; try exact Hplain.
  destruct a as [| | | | | | |[msg|msg]| |]; try exact Hplain; [|reflexivity].
  unfold appendTintError. cbn [bind Outcome_map]. f_equal.
  rewrite (appendString_app (appendString (buf ++ Blue) _ _ _ ++ _)).
  rewrite (appendString_app (buf ++ Blue)).
  rewrite (appendString_app (appendString ("" ++ Blue) _ _ _ ++ _)).
  rewrite (appendString_app ("" ++ Blue)).
  rewrite !sapp_assoc. reflexivity.
Qed.

Lemma Outcome_map_app (a b : string) (m : Outcome string) :
  Outcome_map (String.append a) (Outcome_map (String.append b) m)
  = Outcome_map (String.append (a ++ b)) m.
Proof. destruct m; simpl; [now rewrite sapp_assoc | reflexivity]. Qed.

(** What an attribute appends depends neither on what the buffer holds
    nor on the handler. *)
Lemma appendAttr_rec_app (v : Value) :
  forall (n : nat) (h h' : handlerTextColor) (buf key gp : string) (gs : list string),
    appendAttr_rec n h buf key v gp gs
    = Outcome_map (String.append buf) (appendAttr_rec n h' "" key v gp gs).
Proof.
  induction v as [s|i|u|f|b|d|t|a|g IH|v' IH|msg] using Value_nested_ind;
    intros n h h' buf key gp gs;
    (destruct n as [|n]; [apply appendAttr_leaf_app|]);
    try apply appendAttr_leaf_app.
  - simpl. rewrite !appendAttrs_members.
    set (gp' := if negb (String.eqb key "") then gp ++ key ++ "." else gp).
    set (gs' := if negb (String.eqb key "") then (gs ++ [key])%list else gs).
    clearbody gp' gs'.
    assert (G : forall (h1 h2 : handlerTextColor) (b : string),
               appendAttrs h1 b g gp' gs'
               = Outcome_map (String.append b) (appendAttrs h2 "" g gp' gs')).
    { induction g as [|[k gv] rest IHg]; intros h1 h2 b.
      - simpl. now rewrite sapp_nil_r.
      - inversion IH as [|? ? IHa IHrest]; subst.
        cbn beta in IHa. cbn [Attr_Value] in IHa.
        simpl appendAttrs. unfold appendAttr. simpl Attr_Key. simpl Attr_Value.
        rewrite (IHa maxLogValues h1 h2 b k gp' gs').
        destruct (appendAttr_rec maxLogValues h2 "" k gv gp' gs') as [o|m];
          simpl; [|reflexivity].
        rewrite (IHg IHrest h1 h2 (b ++ o)), (IHg IHrest h2 h2 o).
        now rewrite Outcome_map_app. }
    apply G.
  - simpl. apply IH.
Qed.

Lemma appendAttrs_app (h h' : handlerTextColor) (attrs : list Attr) (buf gp : string)
    (gs : list string) :
  appendAttrs h buf attrs gp gs
  = Outcome_map (String.append buf) (appendAttrs h' "" attrs gp gs).
Proof.
  revert h h' buf; induction attrs as [|a rest IH]; intros h h' buf.
  - simpl. now rewrite sapp_nil_r.
  - simpl appendAttrs. unfold appendAttr.
    rewrite (appendAttr_rec_app (Attr_Value a) maxLogValues h h' buf).
    destruct (appendAttr_rec maxLogValues h' "" (Attr_Key a) (Attr_Value a) gp gs)
      as [o|m]; simpl; [|reflexivity].
    rewrite (IH h h' (buf ++ o)), (IH h' h' o). now rewrite Outcome_map_app.
Qed.

Lemma appendAttrs_concat (h : handlerTextColor) (as1 as2 : list Attr) (buf gp : string)
    (gs : list string) :
  appendAttrs h buf (as1 ++ as2)%list gp gs
  = (b <- appendAttrs h buf as1 gp gs ;; appendAttrs h b as2 gp gs).
Proof.
  revert buf; induction as1 as [|a rest IH]; intros buf; [reflexivity|].
  simpl. destruct (appendAttr h buf a gp gs) as [o|m]; simpl; [apply IH | reflexivity].
Qed.

End AppendOnly.

(** X7: rendering a list of attributes never touches what the buffer
    already holds and reads no field of the handler: the result is the
    buffer followed by what the same attributes give on an empty buffer
    with any other handler, and it panics exactly when that does. *)
Theorem appendAttrs_only_appends :
  forall (RT : GoRuntime) (h h' : handlerTextColor) (attrs : list Attr)
         (buf gp : string) (gs : list string),
    appendAttrs h buf attrs gp gs
    = Outcome_map (String.append buf) (appendAttrs h' "" attrs gp gs).
Proof. intros. apply appendAttrs_app. Qed.

(** X8: binding attributes in two steps is binding them at once:
    [h.WithAttrs(as1).WithAttrs(as2)] is the handler [h.WithAttrs] of the
    two lists appended, empty lists included, and it panics when that
    does. *)
Theorem WithAttrs_composes :
  forall (RT : GoRuntime) (h : handlerTextColor) (as1 as2 : list Attr),
    (h1 <- handlerTextColor_WithAttrs h as1 ;; handlerTextColor_WithAttrs h1 as2)
    = handlerTextColor_WithAttrs h (as1 ++ as2)%list.
Proof.
  intros RT h as1 as2.
  destruct as1 as [|a1 r1]; [reflexivity|].
  destruct as2 as [|a2 r2].
  - rewrite app_nil_r.
    destruct (handlerTextColor_WithAttrs h (a1 :: r1)); reflexivity.
  - unfold handlerTextColor_WithAttrs.
    change (Nat.eqb (List.length (a1 :: r1)) 0) with false.
    change (Nat.eqb (List.length (a2 :: r2)) 0) with false.
    change (Nat.eqb (List.length ((a1 :: r1) ++ a2 :: r2)%list) 0) with false.
    cbv iota. rewrite appendAttrs_concat.
    destruct (appendAttrs h "" (a1 :: r1) (groupPrefix h) (groups h)) as [o1|m1];
      [|reflexivity].
    cbn [bind clone attrsPrefix groupPrefix groups w level timeFormat source
         addCxtAttr slowThreshold].
    set (h1 := {| source := false; timeFormat := timeFormat h; level := level h;
                  attrsPrefix := attrsPrefix h ++ o1; groupPrefix := groupPrefix h;
                  addCxtAttr := []; groups := groups h; slowThreshold := 0;
                  w := w h |}).
    rewrite (appendAttrs_app h1 h (a2 :: r2) "").
    rewrite (appendAttrs_app h h (a2 :: r2) o1).
    destruct (appendAttrs h "" (a2 :: r2) (groupPrefix h) (groups h)) as [o2|m2];
      [|reflexivity].
    simpl. now rewrite sapp_assoc.
Qed.

(** X9: opening a group is the same as wrapping the attributes in a
    group attribute: the attributes rendered by [h.WithGroup(name)] give
    the bytes that [h] gives for the one attribute [slog.Group(name,
    attrs...)], for every name (the empty one included, which opens no
    group and is inlined as an attribute). *)
Theorem WithGroup_is_group_attribute :
  forall (RT : GoRuntime) (h : handlerTextColor) (name buf : string) (attrs : list Attr),
    let h2 := handlerTextColor_WithGroup h name in
    appendAttrs h2 buf attrs (groupPrefix h2) (groups h2)
    = appendAttr h buf (mkAttr name (GroupValue attrs)) (groupPrefix h) (groups h).
Proof.
  intros RT h name buf attrs h2.
  rewrite appendAttr_group. unfold h2, handlerTextColor_WithGroup.
  destruct (String.eqb name ""); simpl negb; cbv iota.
  - reflexivity.
  - cbn [groupPrefix groups clone].
    rewrite (appendAttrs_app _ h attrs buf).
    now rewrite <- (appendAttrs_app h h attrs buf).
Qed.

(** ** Context attributes *)

Section ContextFacts.

Context {RT : GoRuntime}.

Lemma AddValueCtx_loop_eq (h : handlerTextColor) (ctx : Context) (keys : list string)
    (buf : string) :
  AddValueCtx_loop h ctx keys buf
  = buf ++ sconcat (map (ctx_attr_text ctx)
                        (filter (fun k => negb (is_nil (ctx_Value ctx k))) keys)).
Proof.
  revert buf; induction keys as [|k keys IH]; intros buf.
  - simpl. now rewrite sapp_nil_r.
  - cbn [AddValueCtx_loop filter].
    destruct (negb (is_nil (ctx_Value ctx k))).
    + rewrite IH. unfold appendCtxValue, ctx_attr_text. cbn [map sconcat].
      now rewrite !sapp_assoc.
    + apply IH.
Qed.

Lemma addCxtAttr_loop_eq (ctx : Context) (keys : list string) (rec : Record_) :
  addCxtAttr_loop ctx keys rec
  = mkRecord (rec_Time rec) (rec_Message rec) (rec_Level rec) (rec_PC rec)
      (rec_Attrs rec
       ++ map (fun k => mkAttr k (slog_AnyValue (ctx_Value ctx k)))
              (filter (fun k => negb (is_nil (ctx_Value ctx k))) keys))%list.
Proof.
  revert rec; induction keys as [|k keys IH]; intros rec.
  - simpl. rewrite app_nil_r. now destruct rec.
  - cbn [addCxtAttr_loop filter].
    destruct (negb (is_nil (ctx_Value ctx k))).
    + rewrite IH. unfold Record_Add. cbn [rec_Time rec_Message rec_Level rec_PC rec_Attrs map].
      now rewrite <- app_assoc.
    + apply IH.
Qed.

Lemma enrich_eq {H : Type} (m : HandlerMiddleware H) (ctx : Context) (rec : Record_) :
  HandlerMiddleware_enrich m ctx rec
  = mkRecord (rec_Time rec) (rec_Message rec) (rec_Level rec) (rec_PC rec)
      (rec_Attrs rec ++ enrich_attrs m ctx (rec_PC rec))%list.
Proof.
  unfold HandlerMiddleware_enrich, enrich_attrs. rewrite addCxtAttr_loop_eq.
  destruct (is_nil (ctx_Value ctx key_Sql)); destruct (mw_source m);
    destruct (is_nil (ctx_Value ctx key_Source));
    destruct (negb (String.eqb (File (rec_PC rec)) "")) eqn:Ef;
    unfold Record_Add;
    cbn [rec_Time rec_Message rec_Level rec_PC rec_Attrs andb negb];
    rewrite ?Ef; cbn [andb negb];
    rewrite <- ?app_assoc, ?app_nil_r; reflexivity.
Qed.

End ContextFacts.

(** X10: [AddValueCtx] appends, for the keys of [addCxtAttr] that the
    context holds and in their configured order, the dimmed key, [=],
    the value as [%v] prints it and a space; keys the context lacks add
    nothing, a key listed twice is rendered twice. *)
Theorem AddValueCtx_renders_present_keys :
  forall (RT : GoRuntime) (h : handlerTextColor) (ctx : Context) (buf : string),
    AddValueCtx h ctx buf
    = buf ++ sconcat (map (ctx_attr_text ctx)
                          (filter (fun k => negb (is_nil (ctx_Value ctx k)))
                                  (addCxtAttr h))).
Proof. intros. apply AddValueCtx_loop_eq. Qed.

(** X11: the middleware forwards the record with its time, message,
    level and program counter unchanged and its attributes followed by
    the ones it adds: one for every key of [addCxtAttr] the context
    holds, in order, then [sql] when the context has it, then [source]
    when the flag is set, the context has no value under [Source] and
    the frame has a file.  Nothing is deduplicated: enriching twice adds
    them twice. *)
Theorem HandlerMiddleware_enrich_appends :
  forall (RT : GoRuntime) (H : Type) (next_Handler : Handler H)
         (m : HandlerMiddleware H) (ctx : Context) (rec : Record_),
    HandlerMiddleware_Handle m ctx rec
    = Handle (mw_next m) ctx
        (mkRecord (rec_Time rec) (rec_Message rec) (rec_Level rec) (rec_PC rec)
           (rec_Attrs rec ++ enrich_attrs m ctx (rec_PC rec))%list)
    /\ rec_Attrs (HandlerMiddleware_enrich m ctx (HandlerMiddleware_enrich m ctx rec))
       = (rec_Attrs rec ++ enrich_attrs m ctx (rec_PC rec)
          ++ enrich_attrs m ctx (rec_PC rec))%list
    /\ (List.length (enrich_attrs m ctx (rec_PC rec))
        <= List.length (mw_addCxtAttr m) + 2)%nat.
Proof.
  intros RT H next_Handler m ctx rec. split; [|split].
  - unfold HandlerMiddleware_Handle. now rewrite enrich_eq.
  - rewrite !enrich_eq. cbn [rec_Attrs rec_PC]. now rewrite <- app_assoc.
  - unfold enrich_attrs. rewrite !length_app, length_map.
    pose proof (filter_length_le (fun k => negb (is_nil (ctx_Value ctx k)))
                  (mw_addCxtAttr m)).
    destruct (is_nil (ctx_Value ctx key_Sql));
      destruct (mw_source m && is_nil (ctx_Value ctx key_Source)
                && negb (String.eqb (File (rec_PC rec)) ""));
      simpl; lia.
Qed.

(** ** The last byte of the line *)

Section LineFacts.

Context {RT : GoRuntime}.

Lemma ends_with_app (c : ascii) (x y : string) : ends_with c y -> ends_with c (x ++ y).
Proof. intros (b & ->). exists (x ++ b). now rewrite sapp_assoc. Qed.

Lemma ends_with_last (c : ascii) (x : string) : ends_with c (x ++ String c "").
Proof. now exists x. Qed.

Lemma closed_text_app (a b : string) :
  closed_text a -> closed_text b -> closed_text (a ++ b).
Proof.
  intros Ha [->|Hb]; [now rewrite sapp_nil_r|].
  right. now apply ends_with_app.
Qed.

Lemma ends_with_closed (b o : string) :
  ends_with " " b -> closed_text o -> ends_with " " (b ++ o).
Proof.
  intros Hb [->|Ho]; [now rewrite sapp_nil_r | now apply ends_with_app].
Qed.

Lemma appendAttr_leaf_closed (h : handlerTextColor) (key : string) (v : Value)
    (gp o : string) :
  appendAttr_leaf h "" key v gp = Returns o -> closed_text o.
Proof.
  unfold appendAttr_leaf.
  destruct (is_zero_Attr key v); [intros E; injection E as <-; now left|].
  assert (Hplain : forall x, Returns (x ++ " ") = Returns o -> closed_text o).
  { intros x E. injection E as <-. right. apply ends_with_last. }
  destruct v as [s|i|u|f|b|d|t|g|a|lv]; try apply Hplain.
  destruct a as [| | | | | | |[msg|msg]| |]; try apply Hplain.
  unfold appendTintError. cbn [bind]. discriminate.
Qed.

Lemma appendAttrs_closed_from (h : handlerTextColor) (attrs : list Attr) (gp : string)
    (gs : list string) :
  Forall (fun a => forall o,
            appendAttr h "" a gp gs = Returns o -> closed_text o) attrs ->
  forall o, appendAttrs h "" attrs gp gs = Returns o -> closed_text o.
Proof.
  induction 1 as [|a rest Ha _ IH]; intros o.
  - simpl. intros E; injection E as <-. now left.
  - simpl appendAttrs.
    destruct (appendAttr h "" a gp gs) as [o1|m] eqn:E1; simpl bind; [|discriminate].
    rewrite (appendAttrs_app h h rest o1).
    destruct (appendAttrs h "" rest gp gs) as [o2|m]; simpl; [|discriminate].
    intros E; injection E as <-.
    apply closed_text_app; [now apply Ha | now apply IH].
Qed.

(** What an attribute appends is empty or ends in a space. *)
Lemma appendAttr_rec_closed (v : Value) :
  forall (n : nat) (h : handlerTextColor) (key gp : string) (gs : list string)
         (o : string),
    appendAttr_rec n h "" key v gp gs = Returns o -> closed_text o.
Proof.
  induction v as [s|i|u|f|b|d|t|a|g IH|v' IH|msg] using Value_nested_ind;
    intros n h key gp gs o;
    (destruct n as [|n]; [apply appendAttr_leaf_closed|]);
    try apply appendAttr_leaf_closed.
  - simpl. rewrite !appendAttrs_members.
    apply appendAttrs_closed_from.
    eapply Forall_impl; [|exact IH].
    intros [k gv] Hgv o'. unfold appendAttr. cbn [Attr_Key Attr_Value] in *.
    apply Hgv.
  - simpl. apply IH.
Qed.

Lemma appendAttrs_closed (h : handlerTextColor) (attrs : list Attr) (gp : string)
    (gs : list string) (o : string) :
  appendAttrs h "" attrs gp gs = Returns o -> closed_text o.
Proof.
  apply appendAttrs_closed_from. apply Forall_forall. intros a _ o'.
  unfold appendAttr. apply appendAttr_rec_closed.
Qed.

Lemma sconcat_closed (ctx : Context) (keys : list string) :
  closed_text (sconcat (map (ctx_attr_text ctx) keys)).
Proof.
  induction keys as [|k keys IH]; [now left|].
  cbn [map sconcat]. apply closed_text_app; [|exact IH].
  right. unfold ctx_attr_text. do 3 apply ends_with_app. apply ends_with_last.
Qed.

Lemma appendSource_ends (h : handlerTextColor) (buf : string) (src : Source) :
  ends_with " " (appendSource h buf src).
Proof.
  unfold appendSource. cbv zeta. apply ends_with_app.
  apply (ends_with_app " " " "). do 2 apply ends_with_app.
  apply (ends_with_last " " Reset).
Qed.

(** [Handle] is its rendering followed by the replacement of the last
    byte and the write. *)
Lemma Handle_render (h : handlerTextColor) (ctx : Context) (r : Record_) :
  handlerTextColor_Handle h ctx r
  = (buf <- handlerTextColor_render h ctx r ;;
     if len buf =? 0 then Returns {| written := None; err := None |}
     else
       e <- w h (set_last buf newline) ;;
       Returns {| written := Some (set_last buf newline); err := e |}).
Proof.
  unfold handlerTextColor_Handle, handlerTextColor_render. cbv zeta.
  match goal with
  | |- context [appendAttrs h ?b ?a ?p ?g] => destruct (appendAttrs h b a p g)
  end; reflexivity.
Qed.

Lemma render_nonempty (h : handlerTextColor) (ctx : Context) (r : Record_) (buf : string) :
  handlerTextColor_render h ctx r = Returns buf -> buf <> "".
Proof.
  unfold handlerTextColor_render. cbv zeta.
  match goal with
  | |- context [appendAttrs h ?b _ _ _] => set (B0 := b)
  end.
  assert (HB0 : B0 <> "").
  { unfold B0. eapply extends_nonempty; [|apply appendMessage_extends].
    match goal with
    | |- (if ?c then _ else _) <> _ => destruct c
    end.
    - destruct (ctx_Value ctx key_Source);
        (eapply extends_nonempty; [|apply appendSource_extends]);
        (destruct (appendLevel h _ (rec_Level r)); discriminate).
    - destruct (appendLevel h _ (rec_Level r)); discriminate. }
  rewrite (appendAttrs_app h h (rec_Attrs r) B0).
  destruct (appendAttrs h "" (rec_Attrs r) (groupPrefix h) (groups h)) as [o|m];
    simpl; [|discriminate].
  intros E; injection E as <-.
  eapply extends_nonempty; [|apply appendSql_extends].
  assert (Hctx : AddValueCtx h ctx (B0 ++ o) <> "").
  { eapply extends_nonempty; [|apply AddValueCtx_loop_extends].
    eapply extends_nonempty; [exact HB0 | apply extends_app]. }
  destruct (0 <? len (attrsPrefix h)); [|exact Hctx].
  eapply extends_nonempty; [exact Hctx | apply extends_app].
Qed.

Lemma appendSql_ends (h : handlerTextColor) (ctx : Context) (lvl : Z) (buf : string) :
  ends_with " " buf ->
  ends_with (if is_nil (ctx_Value ctx key_Sql) then " " else newline)
            (appendSql h ctx lvl buf).
Proof.
  intros Hb. unfold appendSql. cbv zeta.
  destruct (is_nil (ctx_Value ctx key_Sql)); [exact Hb|].
  apply ends_with_app. apply ends_with_app.
  apply (ends_with_app newline (fmt_v (ctx_Value ctx key_Sql) ++ " ")).
  apply (ends_with_last newline Reset).
Qed.

Lemma render_ends (h : handlerTextColor) (ctx : Context) (r : Record_) (buf : string) :
  attrsPrefix_closed h ->
  handlerTextColor_render h ctx r = Returns buf ->
  ends_with (if is_nil (ctx_Value ctx key_Sql) then " " else newline) buf.
Proof.
  intros Hc. unfold handlerTextColor_render. cbv zeta.
  match goal with
  | |- context [appendAttrs h ?b _ _ _] => set (B0 := b)
  end.
  assert (HB0 : ends_with " " B0).
  { unfold B0, appendMessage.
    assert (Hsrc : ends_with " "
              (if source h && negb (String.eqb (File (rec_PC r)) "") then
                 match ctx_Value ctx key_Source with
                 | any_Source c =>
                     appendSource h
                       (appendLevel h
                          (if negb (Time_IsZero (rec_Time r))
                           then appendTime h "" (rec_Time r) ++ " " else "")
                          (rec_Level r) ++ " ") c
                 | _ =>
                     appendSource h
                       (appendLevel h
                          (if negb (Time_IsZero (rec_Time r))
                           then appendTime h "" (rec_Time r) ++ " " else "")
                          (rec_Level r) ++ " ")
                       {| Function := Function (rec_PC r); File := File (rec_PC r);
                          Line := Line (rec_PC r) |}
                 end
               else
                 appendLevel h
                   (if negb (Time_IsZero (rec_Time r))
                    then appendTime h "" (rec_Time r) ++ " " else "")
                   (rec_Level r) ++ " ")).
    { destruct (source h && negb (String.eqb (File (rec_PC r)) ""));
        [destruct (ctx_Value ctx key_Source); apply appendSource_ends
        | apply ends_with_last]. }
    destruct (String.eqb (rec_Message r) ""); [exact Hsrc|].
    do 3 apply ends_with_app. apply (ends_with_last " " Reset). }
  rewrite (appendAttrs_app h h (rec_Attrs r) B0).
  destruct (appendAttrs h "" (rec_Attrs r) (groupPrefix h) (groups h)) as [o|m] eqn:Eo;
    simpl; [|discriminate].
  intros E; injection E as <-.
  apply appendSql_ends.
  assert (Hctx : ends_with " " (AddValueCtx h ctx (B0 ++ o))).
  { unfold AddValueCtx. rewrite AddValueCtx_loop_eq.
    apply ends_with_closed; [|apply sconcat_closed].
    apply ends_with_closed; [exact HB0 | eapply appendAttrs_closed; exact Eo]. }
  destruct (0 <? len (attrsPrefix h)); [|exact Hctx].
  apply ends_with_closed; [exact Hctx | exact Hc].
Qed.

End LineFacts.

(** X12: the bound attribute text of a handler is empty or ends in a
    space: this holds for the handler [NewDevHandler] builds and is kept
    by [WithAttrs] and by [WithGroup]; what a list of attributes appends
    is itself empty or ends in a space. *)
Theorem attrsPrefix_closed_invariant :
  forall (RT : GoRuntime) (opt : Options),
    attrsPrefix_closed (NewDevHandler opt)
    /\ (forall h attrs h2,
          attrsPrefix_closed h ->
          handlerTextColor_WithAttrs h attrs = Returns h2 ->
          attrsPrefix_closed h2)
    /\ (forall h name,
          attrsPrefix_closed h -> attrsPrefix_closed (handlerTextColor_WithGroup h name))
    /\ (forall h attrs gp gs o,
          appendAttrs h "" attrs gp gs = Returns o -> closed_text o).
Proof.
  intros RT opt. split; [now left|]. split; [|split].
  - intros h attrs h2 Hc. unfold handlerTextColor_WithAttrs.
    destruct (Nat.eqb (List.length attrs) 0); [intros E; now injection E as <-|].
    destruct (appendAttrs h "" attrs (groupPrefix h) (groups h)) as [o|m] eqn:Eo;
      simpl bind; [|discriminate].
    intros E; injection E as <-. unfold attrsPrefix_closed. cbn [attrsPrefix].
    apply (closed_text_app (attrsPrefix h) o Hc).
    eapply appendAttrs_closed; exact Eo.
  - intros h name Hc. unfold handlerTextColor_WithGroup.
    destruct (String.eqb name ""); exact Hc.
  - intros h attrs gp gs o. apply appendAttrs_closed.
Qed.

(** X13: the branch of [Handle] for an empty buffer is never taken:
    whenever the attributes are rendered without a panic, [Handle] calls
    [Write] once, with a line that is not empty and ends in a newline,
    and returns the error of that call. *)
Theorem Handle_always_writes :
  forall (RT : GoRuntime) (h : handlerTextColor) (ctx : Context) (r : Record_),
    handlerTextColor_Handle h ctx r
    = (buf <- handlerTextColor_render h ctx r ;;
       e <- w h (set_last buf newline) ;;
       Returns {| written := Some (set_last buf newline); err := e |})
    /\ (forall buf, handlerTextColor_render h ctx r = Returns buf ->
          ends_with newline (set_last buf newline))
    /\ (forall res, handlerTextColor_Handle h ctx r = Returns res ->
          exists line, written res = Some line /\ w h line = Returns (err res)).
Proof.
  intros RT h ctx r.
  assert (E1 : handlerTextColor_Handle h ctx r
               = (buf <- handlerTextColor_render h ctx r ;;
                  e <- w h (set_last buf newline) ;;
                  Returns {| written := Some (set_last buf newline); err := e |})).
  { rewrite Handle_render.
    destruct (handlerTextColor_render h ctx r) as [buf|m] eqn:E; [|reflexivity].
    simpl bind. now rewrite (len_zero_false buf (render_nonempty h ctx r buf E)). }
  split; [exact E1|]. split.
  - intros buf E.
    destruct (set_last_nonempty buf newline (render_nonempty h ctx r buf E))
      as (line & ->).
    apply ends_with_last.
  - intros res. rewrite E1.
    destruct (handlerTextColor_render h ctx r) as [buf|m]; simpl bind; [|discriminate].
    destruct (w h (set_last buf newline)) as [e|m] eqn:Ew; simpl bind; [|discriminate].
    intros E; injection E as <-. exists (set_last buf newline). now split.
Qed.

(** X14: for a handler whose bound attribute text is empty or ends in a
    space, the byte [Handle] overwrites with the newline is a separator,
    never a byte of content: the rendered buffer ends in a space when
    the context has no value under [Sql] and in a newline when it has
    one, and the line written is the buffer with that byte replaced. *)
Theorem Handle_replaces_a_separator :
  forall (RT : GoRuntime) (h : handlerTextColor) (ctx : Context) (r : Record_)
         (buf : string),
    attrsPrefix_closed h ->
    handlerTextColor_render h ctx r = Returns buf ->
    exists body,
      buf = body ++ String (if is_nil (ctx_Value ctx key_Sql) then " "%char else newline) ""
      /\ handlerTextColor_Handle h ctx r
         = (e <- w h (body ++ String newline "") ;;
            Returns {| written := Some (body ++ String newline ""); err := e |}).
Proof.
  intros RT h ctx r buf Hc E.
  destruct (render_ends h ctx r buf Hc E) as (body & Hb).
  exists body. split; [exact Hb|].
  rewrite Handle_render, E. simpl bind.
  rewrite (len_zero_false buf (render_nonempty h ctx r buf E)).
  rewrite Hb, set_last_snoc. reflexivity.
Qed.

Lemma attrsPrefix_closed_invariant_witness :
  exists h2,
    handlerTextColor_WithAttrs (RT := Example.runtime) Example.dev
      [mkAttr "user" (StringValue "ann")] = Returns h2
    /\ attrsPrefix_closed h2.
Proof.
  eexists. split; [reflexivity|].
  exact (proj1 (proj2 (attrsPrefix_closed_invariant Example.runtime Example.devOptions))
           Example.dev [mkAttr "user" (StringValue "ann")] _
           (or_introl eq_refl) eq_refl).
Defined.

Lemma Handle_replaces_a_separator_witness :
  exists body,
    handlerTextColor_Handle (RT := Example.runtime) Example.dev Example.traceCtx
      Example.traced
    = (e <- w Example.dev (body ++ String newline "") ;;
       Returns {| written := Some (body ++ String newline ""); err := e |}).
Proof.
  destruct (Handle_replaces_a_separator Example.runtime Example.dev Example.traceCtx
              Example.traced _ (or_introl eq_refl) eq_refl) as (body & _ & E).
  exists body. exact E.
Defined.

(** ** Stripping escape sequences *)

Section CutFacts.

Context {RT : GoRuntime}.

Lemma cut_loop_acc {St : Type} (fuel : nat) :
  forall (s : string) (f : St -> Z -> bool * St) (st : St) (res0 res : list Z),
    cut_loop fuel s f st (res0 ++ res) = (res0 ++ cut_loop fuel s f st res)%list.
Proof.
  induction fuel as [|fuel IH]; intros s f st res0 res; [reflexivity|].
  cbn [cut_loop]. destruct (len s <=? 0); [reflexivity|].
  destruct (utf8.DecodeRuneInString s) as [r size].
  destruct (r =? utf8.RuneError); [reflexivity|].
  destruct (f st r) as [[|] st']; [apply IH|].
  rewrite <- app_assoc. apply IH.
Qed.

Lemma cut_loop_ascii_step {St : Type} (fuel : nat) (c : ascii) (t : string)
    (f : St -> Z -> bool * St) (st : St) (res : list Z) :
  byte_of c < 128 ->
  cut_loop (S fuel) (String c t) f st res
  = cut_loop fuel t f (snd (f st (byte_of c)))
      (if fst (f st (byte_of c)) then res else (res ++ [byte_of c])%list).
Proof.
  intros Hb. cbn [cut_loop].
  replace (len (String c t) <=? 0) with false
    by (symmetry; apply Z.leb_gt; rewrite len_String; pose proof (len_nonneg t); lia).
  rewrite (decode_ascii_byte c t Hb).
  replace (byte_of c =? utf8.RuneError) with false
    by (symmetry; apply Z.eqb_neq; unfold utf8.RuneError; lia).
  destruct (f st (byte_of c)) as [cut_it st']. reflexivity.
Qed.

Lemma cut_loop_done {St : Type} (fuel : nat) (f : St -> Z -> bool * St) (st : St)
    (res : list Z) :
  cut_loop fuel "" f st res = res.
Proof. destruct fuel; reflexivity. Qed.

Lemma cut_loop_plain (plain : string) :
  forall (fuel : nat) (rest : string) (res : list Z),
    all_bytes (fun b => (b <? 128) && negb (b =? ansiEsc)) plain = true ->
    cut_loop (String.length plain + fuel) (plain ++ rest) trim_ansi false res
    = cut_loop fuel rest trim_ansi false (res ++ bytes plain).
Proof.
  induction plain as [|c plain IH]; intros fuel rest res Hp.
  - simpl. now rewrite app_nil_r.
  - cbn [all_bytes] in Hp. apply andb_prop in Hp as [Hc Hp].
    apply andb_prop in Hc as [Hlt Hesc]. apply Z.ltb_lt in Hlt.
    cbn [String.length Nat.add String.append bytes].
    rewrite (cut_loop_ascii_step _ c _ _ _ _ Hlt).
    apply negb_true_iff in Hesc.
    assert (Ht : trim_ansi false (byte_of c) = (false, false))
      by (unfold trim_ansi; now rewrite Hesc).
    rewrite Ht. cbn [fst snd].
    rewrite (IH fuel rest _ Hp). now rewrite <- app_assoc.
Qed.

Lemma cut_loop_params (params : string) :
  forall (fuel : nat) (rest : string) (res : list Z),
    all_bytes (fun b => (b <? 128) && negb (unicode_IsLetter b)) params = true ->
    cut_loop (String.length params + fuel) (params ++ rest) trim_ansi true res
    = cut_loop fuel rest trim_ansi true res.
Proof.
  induction params as [|c params IH]; intros fuel rest res Hp; [reflexivity|].
  cbn [all_bytes] in Hp. apply andb_prop in Hp as [Hc Hp].
  apply andb_prop in Hc as [Hlt Hl]. apply Z.ltb_lt in Hlt.
  cbn [String.length Nat.add String.append].
  rewrite (cut_loop_ascii_step _ c _ _ _ _ Hlt).
  apply negb_true_iff in Hl.
  assert (Ht : trim_ansi true (byte_of c) = (true, true))
    by (unfold trim_ansi; rewrite Hl; now destruct (byte_of c =? ansiEsc)).
  rewrite Ht. cbn [fst snd]. apply (IH fuel rest res Hp).
Qed.

Lemma string_of_runes_app (a b : list Z) :
  utf8.string_of_runes (a ++ b) = utf8.string_of_runes a ++ utf8.string_of_runes b.
Proof.
  induction a as [|r a IH]; [reflexivity|].
  cbn [app utf8.string_of_runes]. now rewrite IH, sapp_assoc.
Qed.

Lemma chr_byte_of (c : ascii) : chr (byte_of c) = c.
Proof. unfold chr, byte_of. rewrite N2Z.id. apply ascii_N_embedding. Qed.

Lemma string_of_runes_bytes (s : string) :
  all_bytes (fun b => (b <? 128) && negb (b =? ansiEsc)) s = true ->
  utf8.string_of_runes (bytes s) = s.
Proof.
  induction s as [|c s IH]; intros Hp; [reflexivity|].
  cbn [all_bytes] in Hp. apply andb_prop in Hp as [Hc Hp].
  apply andb_prop in Hc as [Hlt _]. apply Z.ltb_lt in Hlt.
  cbn [bytes utf8.string_of_runes]. rewrite (IH Hp).
  unfold utf8.EncodeRune. pose proof (byte_of_range c) as R.
  replace ((0 <=? byte_of c) && (byte_of c <=? 127)) with true
    by (symmetry; apply andb_true_intro; split; apply Z.leb_le; lia).
  now rewrite chr_byte_of.
Qed.

(** After a prefix without escape byte, [cut] goes on with the rest. *)
Lemma cut_prefix (plain rest : string) :
  all_bytes (fun b => (b <? 128) && negb (b =? ansiEsc)) plain = true ->
  cut (plain ++ rest) trim_ansi false
  = plain
    ++ utf8.string_of_runes (cut_loop (String.length rest) rest trim_ansi false []).
Proof.
  intros Hp. unfold cut. rewrite slen_app, (cut_loop_plain plain _ rest [] Hp).
  cbn [app]. rewrite <- (app_nil_r (bytes plain)), cut_loop_acc.
  now rewrite string_of_runes_app, (string_of_runes_bytes plain Hp).
Qed.

Lemma cut_loop_esc (fuel : nat) (t : string) (st : bool) (res : list Z) :
  cut_loop (S fuel) (esc t) trim_ansi st res = cut_loop fuel t trim_ansi true res.
Proof.
  unfold esc. rewrite cut_loop_ascii_step by (vm_compute; reflexivity).
  reflexivity.
Qed.

End CutFacts.

(** X15: the filter [appendString] hands to [cut] removes escape
    sequences from single-byte text: text without the escape byte is
    kept as it is; an escape byte, the non-letters after it and the
    first letter are dropped and the text after that letter is treated
    anew; an escape byte that no letter follows takes the rest of the
    text with it; and [cut] stops at the first byte sequence that
    decodes to the replacement rune, dropping it and all that follows. *)
Theorem cut_strips_escape_sequences :
  forall (RT : GoRuntime) (plain params rest : string) (l : ascii),
    all_bytes (fun b => (b <? 128) && negb (b =? ansiEsc)) plain = true ->
    all_bytes (fun b => (b <? 128) && negb (unicode_IsLetter b)) params = true ->
    byte_of l < 128 -> byte_of l <> ansiEsc -> unicode_IsLetter (byte_of l) = true ->
    cut plain trim_ansi false = plain
    /\ cut (plain ++ esc (params ++ String l rest)) trim_ansi false
       = plain ++ cut rest trim_ansi false
    /\ cut (plain ++ esc params) trim_ansi false = plain
    /\ (forall c t,
          fst (utf8.DecodeRuneInString (String c t)) = utf8.RuneError ->
          cut (plain ++ String c t) trim_ansi false = plain).
Proof.
  intros RT plain params rest l Hp Hq Hl Hne Hletter. repeat split.
  - pose proof (cut_prefix plain "" Hp) as E. rewrite sapp_nil_r in E.
    rewrite E. cbn [String.length cut_loop utf8.string_of_runes].
    apply sapp_nil_r.
  - rewrite (cut_prefix plain _ Hp). f_equal. unfold cut. f_equal.
    change (String.length (esc (params ++ String l rest)))
      with (S (String.length (params ++ String l rest))).
    rewrite cut_loop_esc, slen_app, (cut_loop_params params _ _ _ Hq).
    cbn [String.length]. rewrite (cut_loop_ascii_step _ l _ _ _ _ Hl).
    assert (Ht : trim_ansi true (byte_of l) = (true, false)).
    { unfold trim_ansi.
      replace (byte_of l =? ansiEsc) with false by (symmetry; now apply Z.eqb_neq).
      now rewrite Hletter. }
    rewrite Ht. reflexivity.
  - rewrite (cut_prefix plain _ Hp).
    change (String.length (esc params)) with (S (String.length params)).
    rewrite cut_loop_esc.
    pose proof (cut_loop_params params 0 "" [] Hq) as E.
    rewrite sapp_nil_r, Nat.add_0_r in E. rewrite E, cut_loop_done.
    apply sapp_nil_r.
  - intros c t Hd. rewrite (cut_prefix plain _ Hp).
    cbn [String.length cut_loop].
    replace (len (String c t) <=? 0) with false
      by (symmetry; apply Z.leb_gt; rewrite len_String; pose proof (len_nonneg t); lia).
    destruct (utf8.DecodeRuneInString (String c t)) as [r size].
    cbn [fst] in Hd. rewrite Hd, Z.eqb_refl. apply sapp_nil_r.
Qed.

Lemma cut_strips_escape_sequences_witness :
  cut ("ok " ++ esc ("[31m" ++ "red")) (trim_ansi (RT := Example.runtime)) false
  = "ok " ++ cut "red" (trim_ansi (RT := Example.runtime)) false.
Proof.
  refine (proj1 (proj2 (cut_strips_escape_sequences Example.runtime "ok " "[31" "red" "m"
    eq_refl eq_refl eq_refl _ eq_refl))).
  intros E. vm_compute in E. discriminate E.
Defined.

(** ** The gorm adapter behind the middleware *)


(** ** A [MarshalText] that fails *)

(** X17: when [MarshalText] of an attribute's value returns an error,
    the error is dropped and nothing is written for the value: the line
    shows the key, [=] and the separating space.  A [MarshalText] that
    returns empty data is different: its value is the quoted empty
    string. *)
Theorem marshal_error_leaves_value_empty :
  forall (RT : GoRuntime) (h : handlerTextColor) (buf key : string) (np : bool)
         (e gp : string) (gs : list string),
    appendAttr h buf (mkAttr key (AnyValue (any_TextMarshaler np (Marshal_err e)))) gp gs
    = Returns (appendKey h buf key gp ++ " ")
    /\ appendAttr h buf (mkAttr key (AnyValue (any_TextMarshaler np (Marshal_data "")))) gp gs
       = Returns (appendKey h buf key gp
                  ++ strings_ReplaceAll (strconv_Quote "") "\x1b" (String (chr ansiEsc) "")
                  ++ " ").
Proof.
  intros RT h buf key np e gp gs. split.
  - unfold appendAttr. cbn [Attr_Key Attr_Value]. unfold maxLogValues.
    cbn [appendAttr_rec]. unfold appendAttr_leaf, is_zero_Attr.
    rewrite andb_false_r. reflexivity.
  - unfold appendAttr. cbn [Attr_Key Attr_Value]. unfold maxLogValues.
    cbn [appendAttr_rec]. unfold appendAttr_leaf, is_zero_Attr.
    rewrite andb_false_r. cbn [appendValue appendValue_any].
    unfold appendString. cbn [andb negb]. unfold needsQuoting.
    change (len "" =? 0) with true. cbv iota. now rewrite sapp_assoc.
Qed.

(** ** Group prefixes in the lines of a derived handler *)

Section GroupLines.

Context {RT : GoRuntime}.

Lemma len_zero_nil (s : string) : (0 <? len s) = false -> s = "".
Proof.
  destruct s as [|c s]; [reflexivity|]. intros E. apply Z.ltb_ge in E.
  rewrite len_String in E. pose proof (len_nonneg s). lia.
Qed.

Lemma appendSql_app (h : handlerTextColor) (ctx : Context) (lvl : Z) (buf : string) :
  appendSql h ctx lvl buf = buf ++ appendSql h ctx lvl "".
Proof.
  rewrite !appendSql_eq.
  destruct (is_nil (ctx_Value ctx key_Sql)); [now rewrite sapp_nil_r | reflexivity].
Qed.

(** The line of a handler that writes no source block and no context
    attribute, as every handler that [clone] made. *)
Lemma Handle_derived (h : handlerTextColor) (ctx : Context) (r : Record_) :
  source h = false -> addCxtAttr h = [] ->
  handlerTextColor_Handle h ctx r
  = (text <- appendAttrs h "" (rec_Attrs r) (groupPrefix h) (groups h) ;;
     write_line h (plain_head h r ++ text ++ attrsPrefix h
                   ++ appendSql h ctx (rec_Level r) "")).
Proof.
  intros Hs Ha. rewrite Handle_render.
  destruct (handlerTextColor_render h ctx r) as [buf|m] eqn:E.
  - simpl bind. rewrite (len_zero_false buf (render_nonempty h ctx r buf E)).
    revert E. unfold handlerTextColor_render, AddValueCtx. rewrite Hs, Ha.
    cbn [andb AddValueCtx_loop]. cbv zeta. fold (plain_head h r).
    rewrite (appendAttrs_app h h (rec_Attrs r) (plain_head h r)).
    destruct (appendAttrs h "" (rec_Attrs r) (groupPrefix h) (groups h)) as [text|m];
      simpl; [|discriminate].
    intros E. injection E as <-. unfold write_line. cbv zeta.
    rewrite (appendSql_app h ctx (rec_Level r)).
    destruct (0 <? len (attrsPrefix h)) eqn:El.
    + now rewrite !sapp_assoc.
    + rewrite (len_zero_nil _ El). cbn [String.append]. now rewrite !sapp_assoc.
  - simpl bind. revert E. unfold handlerTextColor_render, AddValueCtx. rewrite Hs, Ha.
    cbn [andb AddValueCtx_loop]. cbv zeta. fold (plain_head h r).
    rewrite (appendAttrs_app h h (rec_Attrs r) (plain_head h r)).
    destruct (appendAttrs h "" (rec_Attrs r) (groupPrefix h) (groups h)) as [text|m'];
      simpl; [discriminate|].
    intros E. now injection E as <-.
Qed.

(** The text of a list of attributes around one of them. *)
Lemma appendAttrs_split (h : handlerTextColor) (pre : list Attr) (a : Attr)
    (post : list Attr) (gp : string) (gs : list string) :
  appendAttrs h "" (pre ++ a :: post)%list gp gs
  = (t1 <- appendAttrs h "" pre gp gs ;;
     ta <- appendAttr h "" a gp gs ;;
     t2 <- appendAttrs h "" post gp gs ;;
     Returns (t1 ++ ta ++ t2)).
Proof.
  rewrite appendAttrs_concat.
  destruct (appendAttrs h "" pre gp gs) as [t1|m]; simpl bind; [|reflexivity].
  cbn [appendAttrs].
  assert (Ea : appendAttr h t1 a gp gs
               = Outcome_map (String.append t1) (appendAttr h "" a gp gs)).
  { unfold appendAttr. apply appendAttr_rec_app. }
  rewrite Ea.
  destruct (appendAttr h "" a gp gs) as [ta|m]; simpl; [|reflexivity].
  rewrite (appendAttrs_app h h post (t1 ++ ta)).
  destruct (appendAttrs h "" post gp gs) as [t2|m]; simpl; [|reflexivity].
  now rewrite sapp_assoc.
Qed.

Lemma appendAttr_resolved_plain (h : handlerTextColor) (key : string) (v : Value)
    (gp : string) (gs : list string) :
  plain_value (Resolve v) = true -> is_zero_Attr key (Resolve v) = false ->
  appendAttr h "" (mkAttr key v) gp gs
  = Returns (Faint ++ (gp ++ key) ++ "=" ++ Reset
             ++ appendValue h "" (Resolve v) true ++ " ").
Proof.
  intros Hp Hz. rewrite appendAttr_eq. cbn [Attr_Key Attr_Value]. cbv zeta. rewrite Hz.
  assert (E : Returns (appendValue h (appendKey h "" key gp) (Resolve v) true ++ " ")
              = Returns (Faint ++ (gp ++ key) ++ "=" ++ Reset
                         ++ appendValue h "" (Resolve v) true ++ " ")).
  { rewrite (appendValue_app h h (appendKey h "" key gp)), appendKey_eq.
    cbn [String.append]. now rewrite !sapp_assoc. }
  destruct (Resolve v) as [s|i|u|f|b|d|t|g|x|lv]; simpl in Hp; try discriminate;
    try exact E.
  destruct x; simpl in Hp; try discriminate; exact E.
Qed.

Lemma appendAttr_resolved_error (h : handlerTextColor) (key : string) (v : Value)
    (msg gp : string) (gs : list string) :
  Resolve v = AnyValue (any_logError (Returns msg)) ->
  appendAttr h "" (mkAttr key v) gp gs
  = Returns (Blue ++ appendString "" (gp ++ key) true true ++ "=" ++ Faint
             ++ appendString "" msg true true ++ Reset ++ " ").
Proof.
  intros Hr. rewrite appendAttr_eq. cbn [Attr_Key Attr_Value]. cbv zeta. rewrite Hr.
  unfold is_zero_Attr. rewrite andb_false_r. unfold appendTintError. cbn [bind].
  f_equal.
  rewrite (appendString_app (appendString ("" ++ Blue) _ _ _ ++ _)).
  rewrite (appendString_app ("" ++ Blue)).
  cbn [String.append]. now rewrite !sapp_assoc.
Qed.

Lemma appendAttr_resolved_group (h : handlerTextColor) (key : string) (v : Value)
    (g : list Attr) (gp : string) (gs : list string) :
  Resolve v = GroupValue g ->
  appendAttr h "" (mkAttr key v) gp gs
  = appendAttrs h "" g
      (if negb (String.eqb key "") then gp ++ key ++ "." else gp)
      (if negb (String.eqb key "") then (gs ++ [key])%list else gs).
Proof.
  intros Hr. rewrite appendAttr_eq. cbn [Attr_Key Attr_Value]. cbv zeta. rewrite Hr.
  unfold is_zero_Attr. now rewrite andb_false_r.
Qed.

End GroupLines.

(** C9: for group names [a] and [b] that are not empty, the handler
    [h.WithGroup(a).WithGroup(b)] has the group prefix of [h] followed by
    [a.b.] (exactly [a.b.] when [h] comes from [NewDevHandler]).  The
    line its [Handle] writes holds the attributes of the record rendered
    under that prefix: an attribute whose resolved value is neither a
    group nor an error wrapper appears as the prefix, the key, [=], the
    value and a space, an error wrapper with the prefix before its key,
    and the members of a group under the prefix followed by the key of
    the group and a dot.  Attributes bound with [WithAttrs] on that
    handler are rendered in the same way and appear so in every line of
    the handler [WithAttrs] returns. *)
Theorem WithGroup_prefixes_compose :
  forall (RT : GoRuntime) (h : handlerTextColor) (a b : string),
    String.eqb a "" = false -> String.eqb b "" = false ->
    let h2 := handlerTextColor_WithGroup (handlerTextColor_WithGroup h a) b in
    let p := groupPrefix h ++ a ++ "." ++ b ++ "." in
    let gs := (groups h ++ [a; b])%list in
    let key_value key v :=
      Faint ++ (p ++ key) ++ "=" ++ Reset ++ appendValue h2 "" v true ++ " " in
    let key_error key msg :=
      Blue ++ appendString "" (p ++ key) true true ++ "=" ++ Faint
      ++ appendString "" msg true true ++ Reset ++ " " in
    let line h' ctx r text :=
      plain_head h' r ++ text ++ attrsPrefix h' ++ appendSql h' ctx (rec_Level r) "" in
    groupPrefix h2 = p
    /\ groups h2 = gs
    /\ attrsPrefix h2 = attrsPrefix h
    /\ (forall ctx r,
          handlerTextColor_Handle h2 ctx r
          = (text <- appendAttrs h2 "" (rec_Attrs r) p gs ;;
             write_line h (line h2 ctx r text)))
    /\ (forall ctx r pre key v post,
          rec_Attrs r = (pre ++ mkAttr key v :: post)%list ->
          plain_value (Resolve v) = true -> is_zero_Attr key (Resolve v) = false ->
          handlerTextColor_Handle h2 ctx r
          = (t1 <- appendAttrs h2 "" pre p gs ;;
             t2 <- appendAttrs h2 "" post p gs ;;
             write_line h (line h2 ctx r (t1 ++ key_value key (Resolve v) ++ t2))))
    /\ (forall ctx r pre key v msg post,
          rec_Attrs r = (pre ++ mkAttr key v :: post)%list ->
          Resolve v = AnyValue (any_logError (Returns msg)) ->
          handlerTextColor_Handle h2 ctx r
          = (t1 <- appendAttrs h2 "" pre p gs ;;
             t2 <- appendAttrs h2 "" post p gs ;;
             write_line h (line h2 ctx r (t1 ++ key_error key msg ++ t2))))
    /\ (forall ctx r pre key v g post,
          rec_Attrs r = (pre ++ mkAttr key v :: post)%list ->
          Resolve v = GroupValue g -> String.eqb key "" = false ->
          handlerTextColor_Handle h2 ctx r
          = (t1 <- appendAttrs h2 "" pre p gs ;;
             tg <- appendAttrs h2 "" g (p ++ key ++ ".") (gs ++ [key])%list ;;
             t2 <- appendAttrs h2 "" post p gs ;;
             write_line h (line h2 ctx r (t1 ++ tg ++ t2))))
    /\ (forall pre key v post h3,
          handlerTextColor_WithAttrs h2 (pre ++ mkAttr key v :: post)%list = Returns h3 ->
          plain_value (Resolve v) = true -> is_zero_Attr key (Resolve v) = false ->
          exists t1 t2,
            appendAttrs h2 "" pre p gs = Returns t1
            /\ appendAttrs h2 "" post p gs = Returns t2
            /\ attrsPrefix h3 = attrsPrefix h ++ t1 ++ key_value key (Resolve v) ++ t2
            /\ groupPrefix h3 = p
            /\ forall ctx r,
                 handlerTextColor_Handle h3 ctx r
                 = (text <- appendAttrs h3 "" (rec_Attrs r) p gs ;;
                    write_line h (line h3 ctx r text)))
    /\ (forall opt,
          groupPrefix (handlerTextColor_WithGroup
                         (handlerTextColor_WithGroup (NewDevHandler opt) a) b)
          = a ++ "." ++ b ++ ".").
Proof.
  intros RT h a b Ha Hb h2 p gs key_value key_error line.
  assert (Hp : groupPrefix h2 = p).
  { unfold h2, p, handlerTextColor_WithGroup. rewrite Ha, Hb. simpl.
    now rewrite !sapp_assoc. }
  assert (Hg : groups h2 = gs).
  { unfold h2, gs, handlerTextColor_WithGroup. rewrite Ha, Hb. simpl.
    now rewrite <- app_assoc. }
  assert (Hx : attrsPrefix h2 = attrsPrefix h)
    by (unfold h2, handlerTextColor_WithGroup; rewrite Ha, Hb; reflexivity).
  assert (Hs : source h2 = false)
    by (unfold h2, handlerTextColor_WithGroup; rewrite Ha, Hb; reflexivity).
  assert (Hc : addCxtAttr h2 = [])
    by (unfold h2, handlerTextColor_WithGroup; rewrite Ha, Hb; reflexivity).
  assert (Hw : w h2 = w h)
    by (unfold h2, handlerTextColor_WithGroup; rewrite Ha, Hb; reflexivity).
  assert (Hwl : forall buf, write_line h2 buf = write_line h buf)
    by (intros buf; unfold write_line; now rewrite Hw).
  assert (HH : forall ctx r,
             handlerTextColor_Handle h2 ctx r
             = (text <- appendAttrs h2 "" (rec_Attrs r) p gs ;;
                write_line h (line h2 ctx r text))).
  { intros ctx r. rewrite (Handle_derived h2 ctx r Hs Hc), Hp, Hg.
    destruct (appendAttrs h2 "" (rec_Attrs r) p gs); simpl bind; [apply Hwl | reflexivity]. }
  split; [exact Hp|]. split; [exact Hg|]. split; [exact Hx|]. split; [exact HH|].
  split; [|split; [|split; [|split]]].
  - intros ctx r pre key v post Hr Hv Hz.
    rewrite HH, Hr, appendAttrs_split, (appendAttr_resolved_plain h2 key v p gs Hv Hz).
    destruct (appendAttrs h2 "" pre p gs) as [t1|m]; simpl bind; [|reflexivity].
    destruct (appendAttrs h2 "" post p gs) as [t2|m]; reflexivity.
  - intros ctx r pre key v msg post Hr Hv.
    rewrite HH, Hr, appendAttrs_split, (appendAttr_resolved_error h2 key v msg p gs Hv).
    destruct (appendAttrs h2 "" pre p gs) as [t1|m]; simpl bind; [|reflexivity].
    destruct (appendAttrs h2 "" post p gs) as [t2|m]; reflexivity.
  - intros ctx r pre key v g post Hr Hv Hk.
    rewrite HH, Hr, appendAttrs_split, (appendAttr_resolved_group h2 key v g p gs Hv), Hk.
    cbn [negb].
    destruct (appendAttrs h2 "" pre p gs) as [t1|m]; simpl bind; [|reflexivity].
    destruct (appendAttrs h2 "" g (p ++ key ++ ".") (gs ++ [key])%list) as [tg|m];
      simpl bind; [|reflexivity].
    destruct (appendAttrs h2 "" post p gs) as [t2|m]; reflexivity.
  - intros pre key v post h3 E Hv Hz. revert E. unfold handlerTextColor_WithAttrs.
    replace (Nat.eqb (List.length (pre ++ mkAttr key v :: post)) 0) with false
      by (symmetry; apply Nat.eqb_neq; rewrite length_app; simpl; lia).
    rewrite Hp, Hg, appendAttrs_split, (appendAttr_resolved_plain h2 key v p gs Hv Hz).
    destruct (appendAttrs h2 "" pre p gs) as [t1|m]; simpl bind; [|discriminate].
    destruct (appendAttrs h2 "" post p gs) as [t2|m]; simpl bind; [|discriminate].
    intros E. injection E as <-. exists t1, t2.
    split; [reflexivity|]. split; [reflexivity|].
    split; [cbn [attrsPrefix]; now rewrite Hx|].
    split; [cbn [groupPrefix clone]; exact Hp|].
    intros ctx r.
    match goal with
    | |- handlerTextColor_Handle ?h' _ _ = _ => set (h3 := h')
    end.
    assert (Hg3 : groups h3 = gs) by (unfold h3; cbn [groups clone]; exact Hg).
    assert (Hp3 : groupPrefix h3 = p) by (unfold h3; cbn [groupPrefix clone]; exact Hp).
    rewrite (Handle_derived h3 ctx r eq_refl eq_refl), Hp3, Hg3.
    destruct (appendAttrs h3 "" (rec_Attrs r) p gs); simpl bind; [|reflexivity].
    unfold write_line, h3. cbn [w clone]. now rewrite Hw.
  - intros opt. unfold handlerTextColor_WithGroup. rewrite Ha, Hb. simpl.
    now rewrite !sapp_assoc.
Qed.

Lemma WithGroup_prefixes_compose_witness :
  handlerTextColor_Handle (RT := Example.runtime)
    (handlerTextColor_WithGroup (handlerTextColor_WithGroup Example.dev "a") "b") []
    (Example.record
       [mkAttr "n" (Int64Value 3);
        mkAttr "user" (LogValuerValue (LogValue_returns (StringValue "ann")));
        mkAttr "g" (GroupValue [mkAttr "k" (BoolValue true)])])
  = Returns {| written :=
                 Some (BrightGreen ++ "INFO" ++ Reset ++ " "
                       ++ Cyan ++ "started" ++ Reset ++ " "
                       ++ Faint ++ "a.b.n=" ++ Reset ++ "3 "
                       ++ Faint ++ "a.b.user=" ++ Reset ++ "ann "
                       ++ Faint ++ "a.b.g.k=" ++ Reset ++ "true" ++ String newline "");
               err := None |}.
Proof.
  refine (eq_trans
    (proj1 (proj2 (proj2 (proj2 (proj2
       (WithGroup_prefixes_compose Example.runtime Example.dev "a" "b" eq_refl eq_refl)))))
       []
       (Example.record
          [mkAttr "n" (Int64Value 3);
           mkAttr "user" (LogValuerValue (LogValue_returns (StringValue "ann")));
           mkAttr "g" (GroupValue [mkAttr "k" (BoolValue true)])])
       [mkAttr "n" (Int64Value 3)] "user"
       (LogValuerValue (LogValue_returns (StringValue "ann")))
       [mkAttr "g" (GroupValue [mkAttr "k" (BoolValue true)])]
       eq_refl eq_refl eq_refl) _).
  vm_compute. reflexivity.
Defined.
